(** * The token decryption pipeline of decrypt.py

    A shallow embedding of [decrypt.py] (with the [verbose_output] switch
    of [main.py]) and the properties of its stages: Base64 decoding, IV
    validation, key derivation, AES-CBC decryption, PKCS#7 padding
    removal, seed decoding, and the per-token / per-batch orchestration;
    and of the ordering of the URIs in [generate_uris.py].

    Conventions.
    - Python [int] is [Z]; [bytes] is [list byte]; [str] is a list of
      Unicode code points ([pystr]); values read from JSON are [pyval].
    - A Python call that may raise returns a [result]; [try]/[except] is a
      [match] on it.  Only subclasses of [Exception] are modelled.
    - Output ([print], [traceback.print_exc], the output file) is a list of
      [event]s, oldest first.
    - [cryptography], the Unicode case tables and the file system are
      interfaces ([Backend], [UnicodeData], [FileSystem]); every theorem
      holds for all their implementations.  The [Reference] module gives
      executable ones.
    - Standard-library behaviour ([base64.b64decode], [bytes.fromhex],
      [bytes.decode], [re], slicing) follows CPython 3.12; so do the texts
      of its error messages. *)

From Stdlib Require Import ZArith NArith List String Ascii DecimalString Lia ZifyNat ZifyN
  Sorted.
From Stdlib.Strings Require Import Byte.
From Stdlib.Floats Require Import SpecFloat.
From stdpp Require Import base tactics option list numbers strings.

Set Warnings "-register-all".
Set Default Proof Using "Type".

(* [lia] on quotients and remainders by constants. *)
Ltac Zify.zify_post_hook ::= Z.div_mod_to_equations.

(** ** Python values *)

Abbreviation codepoint := N (only parsing).
Abbreviation pystr := (list N) (only parsing).
Abbreviation bytes := (list byte) (only parsing).

(** A string literal of the source, as code points. *)
Definition lit (s : string) : pystr := N_of_ascii <$> list_ascii_of_string s.

(** [str(n)] for an [int]. *)
Definition str_of_int (z : Z) : pystr := lit (NilZero.string_of_int (Z.to_int z)).

(** What [json.load] can produce. *)
Inductive pyval :=
| PNone
| PBool (b : bool)
| PInt (z : Z)
| PFloat (f : spec_float)
| PStr (s : pystr)
| PList (l : list pyval)
| PDict (d : list (pystr * pyval)).

(** [type(v).__name__] *)
Definition py_type_name (v : pyval) : pystr :=
  match v with
  | PNone => lit "NoneType"
  | PBool _ => lit "bool"
  | PInt _ => lit "int"
  | PFloat _ => lit "float"
  | PStr _ => lit "str"
  | PList _ => lit "list"
  | PDict _ => lit "dict"
  end.

(** ** Exceptions and results *)

Inductive exn_class :=
| FileNotFoundError
| JSONDecodeError
| KeyError
| ValueError
| TypeError
| AttributeError
| IndexError
| binascii_Error
| UnicodeDecodeError
| UnicodeEncodeError
| OtherError (name : pystr).

(** An exception object: its class and [str(e)]. *)
Record exn := Exn { exn_cls : exn_class; exn_str : pystr }.

(** [type(e).__name__] *)
Definition exn_type_name (e : exn) : pystr :=
  match exn_cls e with
  | FileNotFoundError => lit "FileNotFoundError"
  | JSONDecodeError => lit "JSONDecodeError"
  | KeyError => lit "KeyError"
  | ValueError => lit "ValueError"
  | TypeError => lit "TypeError"
  | AttributeError => lit "AttributeError"
  | IndexError => lit "IndexError"
  | binascii_Error => lit "Error"
  | UnicodeDecodeError => lit "UnicodeDecodeError"
  | UnicodeEncodeError => lit "UnicodeEncodeError"
  | OtherError name => name
  end.

Definition is_FileNotFoundError (e : exn) : bool :=
  match exn_cls e with FileNotFoundError => true | _ => false end.
Definition is_JSONDecodeError (e : exn) : bool :=
  match exn_cls e with JSONDecodeError => true | _ => false end.
Definition is_KeyError (e : exn) : bool :=
  match exn_cls e with KeyError => true | _ => false end.
Definition is_UnicodeDecodeError (e : exn) : bool :=
  match exn_cls e with UnicodeDecodeError => true | _ => false end.

Inductive result (A : Type) : Type :=
| Ok (a : A)
| Raise (e : exn).
Arguments Ok {A} a.
Arguments Raise {A} e.

#[global] Instance result_ret : MRet result := @Ok.
#[global] Instance result_bind : MBind result :=
  λ A B f m, match m with Ok a => f a | Raise e => Raise e end.

Definition is_Ok {A} (r : result A) : bool :=
  match r with Ok _ => true | Raise _ => false end.

(** ** Strings *)

(** [repr(s)] of a [str] whose characters are printable ASCII (the keys
    and messages the source puts in a [KeyError]): single quotes unless
    the text has a single quote and no double quote; backslash and the
    chosen quote are escaped. *)
Definition py_repr_str (s : pystr) : pystr :=
  let q : codepoint :=
    if bool_decide (39%N ∈ s) && negb (bool_decide (34%N ∈ s)) then 34%N else 39%N in
  [q] ++ flat_map (λ c, if bool_decide (c = q ∨ c = 92%N) then [92%N; c] else [c]) s ++ [q].

(** [KeyError(key)]: [str] of a [KeyError] is the [repr] of its argument. *)
Definition mk_KeyError (key : pystr) : exn := Exn KeyError (py_repr_str key).

Definition ascii_upper (c : codepoint) : codepoint :=
  if bool_decide (97 ≤ c ≤ 122)%N then (c - 32)%N else c.

(** [s.replace(" ", "")] *)
Definition str_remove_spaces (s : pystr) : pystr :=
  filter (λ c, c ≠ 32%N) s.

(** [needle in hay] on two [str]. *)
Fixpoint str_contains (needle hay : pystr) : bool :=
  bool_decide (take (length needle) hay = needle) ||
  match hay with
  | [] => false
  | _ :: hay' => str_contains needle hay'
  end.

(** ** Bytes *)

Definition byte_val (b : byte) : Z := Z.of_N (Byte.to_N b).

(** The byte of a value already reduced to [0, 255]. *)
Definition byte_of_N (n : N) : byte := default x00 (Byte.of_N (n mod 256)).

(** [data[i]] on [bytes], negative indices counted from the end. *)
Definition bytes_getitem (data : bytes) (i : Z) : result Z :=
  let n := Z.of_nat (length data) in
  let j := if bool_decide (i < 0)%Z then (i + n)%Z else i in
  if bool_decide (0 ≤ j < n)%Z then
    match data !! Z.to_nat j with
    | Some b => Ok (byte_val b)
    | None => Raise (Exn IndexError (lit "index out of range"))
    end
  else Raise (Exn IndexError (lit "index out of range")).

(** A slice bound clamped as [PySlice_AdjustIndices] does. *)
Definition slice_bound (len i : Z) : nat :=
  Z.to_nat (if bool_decide (i < 0)%Z then Z.max 0 (i + len) else Z.min i len).

(** [data[start:]] *)
Definition bytes_slice_from (data : bytes) (start : Z) : bytes :=
  drop (slice_bound (Z.of_nat (length data)) start) data.

(** [data[:stop]] *)
Definition bytes_slice_to (data : bytes) (stop : Z) : bytes :=
  take (slice_bound (Z.of_nat (length data)) stop) data.

Definition hex_digit (n : N) : codepoint :=
  if bool_decide (n < 10)%N then (48 + n)%N else (87 + n)%N.

(** [data.hex()] *)
Definition bytes_hex (data : bytes) : pystr :=
  flat_map (λ b, [hex_digit (Byte.to_N b / 16); hex_digit (Byte.to_N b mod 16)]) data.

(** ** [bytes.fromhex] *)

Definition Py_ISSPACE (c : codepoint) : bool :=
  bool_decide (c = 32%N) || bool_decide (9 ≤ c ≤ 13)%N.

(** [_PyLong_DigitValue[c] < 16], with the value. *)
Definition hex_digit_value (c : codepoint) : option N :=
  if bool_decide (48 ≤ c ≤ 57)%N then Some (c - 48)%N
  else if bool_decide (97 ≤ c ≤ 102)%N then Some (c - 87)%N
  else if bool_decide (65 ≤ c ≤ 70)%N then Some (c - 55)%N
  else None.

Definition fromhex_error (pos : Z) : exn :=
  Exn ValueError
    (lit "non-hexadecimal number found in fromhex() arg at position " ++ str_of_int pos).

(** The digit-pair loop; whitespace is skipped between pairs only. *)
Fixpoint fromhex_pairs (s : pystr) (pos : Z) : result bytes :=
  match s with
  | [] => Ok []
  | c :: s1 =>
      if Py_ISSPACE c then fromhex_pairs s1 (pos + 1)
      else
        match hex_digit_value c with
        | None => Raise (fromhex_error pos)
        | Some top =>
            match s1 with
            | [] => Raise (fromhex_error (pos + 1))
            | d :: s2 =>
                match hex_digit_value d with
                | None => Raise (fromhex_error (pos + 1))
                | Some bot =>
                    rest ← fromhex_pairs s2 (pos + 2);
                    Ok (byte_of_N (top * 16 + bot) :: rest)
                end
            end
        end
  end.

(** The index of the first element satisfying [p] ([length l] if none). *)
Fixpoint first_index {A} (p : A → bool) (l : list A) : nat :=
  match l with
  | [] => 0
  | x :: l' => if p x then 0 else S (first_index p l')
  end.

Definition is_ascii (c : codepoint) : bool := bool_decide (c < 128)%N.

(** The type as [_PyArg_BadArgument] names it: [None] by its own name. *)
Definition bad_argument_type_name (v : pyval) : pystr :=
  match v with
  | PNone => lit "None"
  | _ => py_type_name v
  end.

(** [bytes.fromhex(v)] *)
Definition bytes_fromhex (v : pyval) : result bytes :=
  match v with
  | PStr s =>
      if forallb is_ascii s then fromhex_pairs s 0
      else Raise (fromhex_error (Z.of_nat (first_index (λ c, negb (is_ascii c)) s)))
  | _ =>
      Raise (Exn TypeError
        (lit "fromhex() argument must be str, not " ++ bad_argument_type_name v))
  end.

(** ** [base64.b64decode] with its default [validate=False] *)

Definition table_a2b_base64 (c : codepoint) : option N :=
  if bool_decide (65 ≤ c ≤ 90)%N then Some (c - 65)%N
  else if bool_decide (97 ≤ c ≤ 122)%N then Some (c - 71)%N
  else if bool_decide (48 ≤ c ≤ 57)%N then Some (c + 4)%N
  else if bool_decide (c = 43%N) then Some 62%N
  else if bool_decide (c = 47%N) then Some 63%N
  else None.

Definition BASE64_PAD : codepoint := 61%N.

Definition a2b_end_error (quad_pos : nat) (written : nat) : exn :=
  if bool_decide (quad_pos = 1) then
    Exn binascii_Error
      (lit "Invalid base64-encoded string: number of data characters ("
       ++ str_of_int (Z.of_nat written / 3 * 4 + 1)
       ++ lit ") cannot be 1 more than a multiple of 4")
  else Exn binascii_Error (lit "Incorrect padding").

(** The loop of [binascii.a2b_base64] in non-strict mode: [quad_pos],
    [leftchar] and [pads] are its variables, [out] the bytes written so
    far.  A character outside the alphabet is skipped; a completed pad
    sequence ends the parse. *)
Fixpoint a2b_base64_loop (s : pystr) (quad_pos : nat) (leftchar : N) (pads : nat)
    (out : bytes) : result bytes :=
  match s with
  | [] =>
      if bool_decide (quad_pos ≠ 0) then Raise (a2b_end_error quad_pos (length out))
      else Ok out
  | this_ch :: s' =>
      if bool_decide (this_ch = BASE64_PAD) then
        if bool_decide (2 ≤ quad_pos) then
          if bool_decide (4 ≤ quad_pos + S pads) then Ok out
          else a2b_base64_loop s' quad_pos leftchar (S pads) out
        else a2b_base64_loop s' quad_pos leftchar pads out
      else
        match table_a2b_base64 this_ch with
        | None => a2b_base64_loop s' quad_pos leftchar pads out
        | Some v =>
            match quad_pos with
            | 0 => a2b_base64_loop s' 1 v 0 out
            | 1 =>
                a2b_base64_loop s' 2 (N.land v 15) 0
                  (out ++ [byte_of_N (N.lor (N.shiftl leftchar 2) (N.shiftr v 4))])
            | 2 =>
                a2b_base64_loop s' 3 (N.land v 3) 0
                  (out ++ [byte_of_N (N.lor (N.shiftl leftchar 4) (N.shiftr v 2))])
            | _ =>
                a2b_base64_loop s' 0 0 0
                  (out ++ [byte_of_N (N.lor (N.shiftl leftchar 6) v)])
            end
        end
  end.

Definition a2b_base64 (s : pystr) : result bytes := a2b_base64_loop s 0 0 0 [].

(** [base64.b64decode(v)]: [_bytes_from_decode_data] then [a2b_base64]. *)
Definition b64decode (v : pyval) : result bytes :=
  match v with
  | PStr s =>
      if forallb is_ascii s then a2b_base64 s
      else Raise (Exn ValueError (lit "string argument should contain only ASCII characters"))
  | _ =>
      Raise (Exn TypeError
        (lit "argument should be a bytes-like object or ASCII string, not '"
         ++ py_type_name v ++ lit "'"))
  end.

(** ** decrypt.py: the Base64 decoder and the IV validator *)

Definition decode_base64_seed (encrypted_seed_b64 : pyval) : result bytes :=
  encrypted_seed ← b64decode encrypted_seed_b64;
  Ok encrypted_seed.

Definition get_iv (unique_iv : pyval) : result bytes :=
  iv ← bytes_fromhex unique_iv;
  if bool_decide (length iv ≠ 16) then
    Raise (Exn ValueError (lit "Invalid IV length: " ++ str_of_int (Z.of_nat (length iv))))
  else Ok iv.

(** ** decrypt.py: the padding stripper *)

Definition remove_padding (decrypted_data : bytes) : result bytes :=
  padding_len ← bytes_getitem decrypted_data (-1);
  let padding_start := (Z.of_nat (length decrypted_data) - padding_len)%Z in
  if bool_decide (padding_len > 16)%Z || bool_decide (padding_start < 0)%Z then
    Raise (Exn ValueError (lit "Invalid padding length"))
  else
    let padding_bytes := bytes_slice_from decrypted_data padding_start in
    if negb (forallb (λ pad, bool_decide (byte_val pad = padding_len)) padding_bytes) then
      Raise (Exn ValueError (lit "Invalid padding bytes"))
    else
      let decrypted_seed_without_padding := bytes_slice_to decrypted_data padding_start in
      Ok decrypted_seed_without_padding.

(** ** [bytes.decode("utf-8")] and [str.encode()] *)

Definition is_continuation (b : N) : bool := bool_decide (128 ≤ b ≤ 191)%N.

(** [str(e)] of the [UnicodeDecodeError] for the bytes [start, stop) of an
    input whose byte at [start] is [b0]. *)
Definition utf8_decode_error (b0 : N) (start stop : Z) (reason : pystr) : exn :=
  Exn UnicodeDecodeError
    (if bool_decide (stop = start + 1)%Z then
       lit "'utf-8' codec can't decode byte 0x" ++ [hex_digit (b0 / 16); hex_digit (b0 mod 16)]
       ++ lit " in position " ++ str_of_int start ++ lit ": " ++ reason
     else
       lit "'utf-8' codec can't decode bytes in position " ++ str_of_int start ++ lit "-"
       ++ str_of_int (stop - 1) ++ lit ": " ++ reason).

Definition low6 (b : N) : N := N.land b 63.

(** The strict decoder: shortest forms only, no surrogates, nothing above
    U+10FFFF.  [pos] is the index of the head of [bs], [size] the length of
    the whole input. *)
Fixpoint utf8_decode_from (bs : list N) (pos size : Z) : result pystr :=
  let bad_start b0 :=
    Raise (utf8_decode_error b0 pos (pos + 1) (lit "invalid start byte")) in
  let bad_cont b0 (n : nat) :=
    Raise (utf8_decode_error b0 pos (pos + Z.of_nat n) (lit "invalid continuation byte")) in
  let bad_end b0 :=
    Raise (utf8_decode_error b0 pos size (lit "unexpected end of data")) in
  match bs with
  | [] => Ok []
  | b0 :: r0 =>
      if bool_decide (b0 < 128)%N then
        rest ← utf8_decode_from r0 (pos + 1) size; Ok (b0 :: rest)
      else if bool_decide (b0 < 194)%N then bad_start b0
      else if bool_decide (b0 < 224)%N then
        match r0 with
        | [] => bad_end b0
        | b1 :: r1 =>
            if negb (is_continuation b1) then bad_cont b0 1
            else
              rest ← utf8_decode_from r1 (pos + 2) size;
              Ok ((N.shiftl (N.land b0 31) 6 + low6 b1)%N :: rest)
        end
      else if bool_decide (b0 < 240)%N then
        match r0 with
        | [] => bad_end b0
        | b1 :: r1 =>
            if negb (is_continuation b1)
               || (if bool_decide (b1 < 160)%N then bool_decide (b0 = 224%N)
                   else bool_decide (b0 = 237%N))
            then bad_cont b0 1
            else
              match r1 with
              | [] => bad_end b0
              | b2 :: r2 =>
                  if negb (is_continuation b2) then bad_cont b0 2
                  else
                    rest ← utf8_decode_from r2 (pos + 3) size;
                    Ok ((N.shiftl (N.land b0 15) 12 + N.shiftl (low6 b1) 6 + low6 b2)%N :: rest)
              end
        end
      else if bool_decide (b0 < 245)%N then
        match r0 with
        | [] => bad_end b0
        | b1 :: r1 =>
            if negb (is_continuation b1)
               || (if bool_decide (b1 < 144)%N then bool_decide (b0 = 240%N)
                   else bool_decide (b0 = 244%N))
            then bad_cont b0 1
            else
              match r1 with
              | [] => bad_end b0
              | b2 :: r2 =>
                  if negb (is_continuation b2) then bad_cont b0 2
                  else
                    match r2 with
                    | [] => bad_end b0
                    | b3 :: r3 =>
                        if negb (is_continuation b3) then bad_cont b0 3
                        else
                          rest ← utf8_decode_from r3 (pos + 4) size;
                          Ok ((N.shiftl (N.land b0 7) 18 + N.shiftl (low6 b1) 12
                               + N.shiftl (low6 b2) 6 + low6 b3)%N :: rest)
                    end
              end
        end
      else bad_start b0
  end.

(** [data.decode("utf-8")] *)
Definition bytes_decode_utf8 (data : bytes) : result pystr :=
  utf8_decode_from (Byte.to_N <$> data) 0 (Z.of_nat (length data)).

Definition is_surrogate (c : codepoint) : bool := bool_decide (55296 ≤ c ≤ 57343)%N.

Fixpoint take_while {A} (p : A → bool) (l : list A) : list A :=
  match l with
  | [] => []
  | x :: l' => if p x then x :: take_while p l' else []
  end.

Fixpoint drop_while {A} (p : A → bool) (l : list A) : list A :=
  match l with
  | [] => []
  | x :: l' => if p x then drop_while p l' else l
  end.

(** [str(e)] of the [UnicodeEncodeError] for a run of [n] lone surrogates
    starting with [c] at index [pos]. *)
Definition utf8_encode_error (c : codepoint) (pos : Z) (n : nat) : exn :=
  Exn UnicodeEncodeError
    (if bool_decide (n = 1) then
       lit "'utf-8' codec can't encode character '\u"
       ++ [hex_digit (c / 4096); hex_digit (c / 256 mod 16); hex_digit (c / 16 mod 16);
           hex_digit (c mod 16)]
       ++ lit "' in position " ++ str_of_int pos ++ lit ": surrogates not allowed"
     else
       lit "'utf-8' codec can't encode characters in position " ++ str_of_int pos ++ lit "-"
       ++ str_of_int (pos + Z.of_nat n - 1) ++ lit ": surrogates not allowed").

Definition cont6 (n : N) : byte := byte_of_N (128 + N.land n 63).

(** The encoder; the code points of a [str] are at most U+10FFFF. *)
Fixpoint utf8_encode_from (s : pystr) (pos : Z) : result bytes :=
  match s with
  | [] => Ok []
  | c :: s' =>
      if is_surrogate c then
        Raise (utf8_encode_error c pos (length (take_while is_surrogate s)))
      else
        rest ← utf8_encode_from s' (pos + 1);
        Ok ((if bool_decide (c < 128)%N then [byte_of_N c]
             else if bool_decide (c < 2048)%N then
               [byte_of_N (192 + N.shiftr c 6); cont6 c]
             else if bool_decide (c < 65536)%N then
               [byte_of_N (224 + N.shiftr c 12); cont6 (N.shiftr c 6); cont6 c]
             else
               [byte_of_N (240 + N.shiftr c 18); cont6 (N.shiftr c 12);
                cont6 (N.shiftr c 6); cont6 c]) ++ rest)
  end.

(** [s.encode()] *)
Definition str_encode (s : pystr) : result bytes := utf8_encode_from s 0.

(** [v.encode()] on a JSON value: only a [str] has the method. *)
Definition py_encode (v : pyval) : result bytes :=
  match v with
  | PStr s => str_encode s
  | _ =>
      Raise (Exn AttributeError
        (lit "'" ++ py_type_name v ++ lit "' object has no attribute 'encode'"))
  end.

(** ** [str.upper], [chr] and the two regular expressions *)

(** The full upper-case mapping of the code points from U+0080 on, a
    table of the interpreter's Unicode database. *)
Class UnicodeData := { unicode_toupper_full : codepoint → pystr }.

(** [s.upper()]: character by character, without context. *)
Definition str_upper {UD : UnicodeData} (s : pystr) : pystr :=
  flat_map (λ c, if is_ascii c then [ascii_upper c] else unicode_toupper_full c) s.

(** [chr(i)] *)
Definition py_chr (i : Z) : result pystr :=
  if bool_decide (0 ≤ i < 1114112)%Z then Ok [Z.to_N i]
  else Raise (Exn ValueError (lit "chr() arg not in range(0x110000)")).

(** The class [[A-Z2-7=]]. *)
Definition is_base32_char (c : codepoint) : bool :=
  bool_decide (65 ≤ c ≤ 90)%N || bool_decide (50 ≤ c ≤ 55)%N || bool_decide (c = 61%N).

(** [re.match(r"^[A-Z2-7=]+$", s)] succeeds: a non-empty greedy run of the
    class from the start, then the end of the text, which [$] also finds
    before one final newline. *)
Definition re_match_base32 (s : pystr) : bool :=
  let run := take_while is_base32_char s in
  let rest := drop_while is_base32_char s in
  bool_decide (run ≠ []) && (bool_decide (rest = []) || bool_decide (rest = [10%N])).

(** [re.search(r"[A-Z2-7=]{10,}", s)]: start positions are tried from the
    left; at each one the greedy quantifier takes the whole run of the
    class and the match succeeds when it has 10 characters or more.  The
    result is [.group()] of the match, [None] when there is none. *)
Fixpoint re_search_base32 (s : pystr) : option pystr :=
  let run := take_while is_base32_char s in
  if bool_decide (10 ≤ length run) then Some run
  else
    match s with
    | [] => None
    | _ :: s' => re_search_base32 s'
    end.

(** ** decrypt.py: the seed decoder *)

(** [try: ... except UnicodeDecodeError: pass], then the fallbacks. *)
Definition decode_decrypted_seed {UD : UnicodeData}
    (decrypted_seed_without_padding : bytes) : result pystr :=
  let attempt :=
    utf8_result ← bytes_decode_utf8 decrypted_seed_without_padding;
    if re_match_base32 (str_remove_spaces (str_upper utf8_result)) then
      Ok (str_remove_spaces (str_upper utf8_result))
    else Ok utf8_result in
  match attempt with
  | Ok s => Ok s
  | Raise e =>
      if is_UnicodeDecodeError e then
        ascii_chars ← mapM (λ b, py_chr (byte_val b))
                        (filter (λ b, 32 ≤ byte_val b ≤ 126)%Z decrypted_seed_without_padding);
        let ascii_string := concat ascii_chars in
        match re_search_base32 (str_upper ascii_string) with
        | Some base32_match => Ok base32_match
        | None =>
            if bool_decide (8 ≤ length ascii_string) then Ok ascii_string
            else Ok (str_upper (bytes_hex decrypted_seed_without_padding))
        end
      else Raise e
  end.

(** ** Effects *)

(** What the program does to the outside, in the order it happens. *)
Inductive event :=
| Stdout (line : pystr)
  (** [print(line)] *)
| Stderr_traceback (e : exn)
  (** [traceback.print_exc()] while [e] is being handled *)
| FileWrite (path : pystr) (data : pyval) (failure : option exn)
  (** [open(path, "w")] and [json.dump(data, f, indent=4)], with the
      exception that ended it, if any *).

(** A computation that emits events and returns or raises. *)
Definition io (A : Type) : Type := list event * result A.

Definition io_lift {A} (r : result A) : io A := ([], r).

#[global] Instance io_ret : MRet io := λ A a, ([], Ok a).
#[global] Instance io_bind : MBind io :=
  λ A B f m,
    match m with
    | (evs, Ok a) => let '(evs', r) := f a in (evs ++ evs', r)
    | (evs, Raise e) => (evs, Raise e)
    end.

(** main.py: [BackgroundColors.RED], and colorama's [Style.RESET_ALL]. *)
Definition RED : pystr := 27%N :: lit "[91m".
Definition RESET_ALL : pystr := 27%N :: lit "[0m".

(** main.py: the execution constant and the printer it guards. *)
Definition VERBOSE : bool := false.

Definition verbose_output (true_string false_string : pystr) : list event :=
  if VERBOSE && bool_decide (true_string ≠ []) then [Stdout true_string]
  else if bool_decide (false_string ≠ []) then [Stdout false_string]
  else [].

(** Every call of [verbose_output] in decrypt.py passes [true_string]
    alone; with [VERBOSE = False] it prints nothing
    ([verbose_output_silent] below), and the f-strings it is given only
    format values that are already computed ([len], [hex], [json.dumps]
    of a value that came from [json.load]), which does not raise.  The
    calls are left out of the functions that follow. *)

(** ** Dictionaries, iteration and membership on JSON values *)

Fixpoint dict_lookup (key : pystr) (d : list (pystr * pyval)) : option pyval :=
  match d with
  | [] => None
  | (k, v) :: d' => if bool_decide (k = key) then Some v else dict_lookup key d'
  end.

Definition no_attribute (v : pyval) (attr : string) : exn :=
  Exn AttributeError
    (lit "'" ++ py_type_name v ++ lit "' object has no attribute '" ++ lit attr ++ lit "'").

(** [v.get(key, dflt)] *)
Definition py_get (v : pyval) (key : pystr) (dflt : pyval) : result pyval :=
  match v with
  | PDict d => Ok (default dflt (dict_lookup key d))
  | _ => Raise (no_attribute v "get")
  end.

(** [v[key]] for a [str] key. *)
Definition py_getitem (v : pyval) (key : pystr) : result pyval :=
  match v with
  | PDict d =>
      match dict_lookup key d with
      | Some x => Ok x
      | None => Raise (mk_KeyError key)
      end
  | PList _ => Raise (Exn TypeError (lit "list indices must be integers or slices, not str"))
  | PStr _ => Raise (Exn TypeError (lit "string indices must be integers, not 'str'"))
  | _ => Raise (Exn TypeError (lit "'" ++ py_type_name v ++ lit "' object is not subscriptable"))
  end.

(** The items [for ... in enumerate(v)] goes through. *)
Definition py_iter (v : pyval) : result (list pyval) :=
  match v with
  | PList l => Ok l
  | PDict d => Ok ((λ kv, PStr kv.1) <$> d)
  | PStr s => Ok ((λ c, PStr [c]) <$> s)
  | _ => Raise (Exn TypeError (lit "'" ++ py_type_name v ++ lit "' object is not iterable"))
  end.

(** [key in v] for a [str] key. *)
Definition py_contains (key : pystr) (v : pyval) : result bool :=
  match v with
  | PDict d => Ok (bool_decide (is_Some (dict_lookup key d)))
  | PList l =>
      Ok (existsb (λ x, match x with PStr s => bool_decide (s = key) | _ => false end) l)
  | PStr s => Ok (str_contains key s)
  | _ =>
      Raise (Exn TypeError (lit "argument of type '" ++ py_type_name v ++ lit "' is not iterable"))
  end.

(** ** The collaborators of decrypt.py *)

(** The [cryptography] package behind [default_backend()]:
    [PBKDF2HMAC(algorithm=hashes.SHA1(), length, salt, iterations)] and
    its [derive]; and [Cipher(algorithms.AES(key), modes.CBC(iv))] with
    [decryptor().update(data) + decryptor().finalize()]. *)
Class Backend := {
  kdf_ctx : Type;
  PBKDF2HMAC_SHA1 : Z → bytes → pyval → result kdf_ctx;
  kdf_derive : kdf_ctx → bytes → result bytes;
  AES_CBC_decrypt : bytes → bytes → bytes → result bytes
}.

(** The files: [json.load] of a file opened for reading, and the outcome
    of [json.dump] into a file opened for writing. *)
Class FileSystem := {
  json_load_file : pystr → result pyval;
  json_dump_file : pystr → pyval → option exn
}.

Section decrypt.
Context {UD : UnicodeData} {BE : Backend} {FS : FileSystem}.

(** ** decrypt.py: loading *)

Definition missing_tokens_message : pystr :=
  lit "Key " ++ [34%N] ++ lit "authenticator_tokens" ++ [34%N]
  ++ lit " not found in the input file.".

Definition load_authenticator_data (input_file : pystr) : result pyval :=
  data ← json_load_file input_file;
  present ← py_contains (lit "authenticator_tokens") data;
  if negb present then Raise (mk_KeyError missing_tokens_message)
  else Ok data.

(** ** decrypt.py: key derivation and block decryption *)

Definition derive_key (kdf_rounds salt : pyval) (passphrase : pystr) : result bytes :=
  salt_bytes ← py_encode salt;
  kdf ← PBKDF2HMAC_SHA1 32 salt_bytes kdf_rounds;
  passphrase_bytes ← str_encode passphrase;
  key ← kdf_derive kdf passphrase_bytes;
  Ok key.

Definition decrypt_data (encrypted_seed key iv : bytes) : result bytes :=
  decrypted_data ← AES_CBC_decrypt key iv encrypted_seed;
  Ok decrypted_data.

(** ** decrypt.py: one token *)

(** The body of the [try] block of [decrypt_token]. *)
Definition decrypt_token_try (kdf_rounds encrypted_seed_b64 salt : pyval)
    (passphrase : pystr) (unique_iv : pyval) : result pystr :=
  encrypted_seed ← decode_base64_seed encrypted_seed_b64;
  iv ← get_iv unique_iv;
  key ← derive_key kdf_rounds salt passphrase;
  decrypted_data ← decrypt_data encrypted_seed key iv;
  decrypted_seed_without_padding ← remove_padding decrypted_data;
  decode_decrypted_seed decrypted_seed_without_padding.

(** [decrypt_token]: the [try] block, and [except Exception as e]. *)
Definition decrypt_token (kdf_rounds encrypted_seed_b64 salt : pyval)
    (passphrase : pystr) (unique_iv : pyval) : list event * pystr :=
  match decrypt_token_try kdf_rounds encrypted_seed_b64 salt passphrase unique_iv with
  | Ok decrypted_seed => ([], decrypted_seed)
  | Raise e =>
      ([Stdout (RED ++ lit "ERROR: Decryption failed with exception: " ++ exn_type_name e
                ++ lit ": " ++ exn_str e ++ RESET_ALL);
        Stderr_traceback e],
       lit "Decryption failed: " ++ exn_str e)
  end.

(** ** decrypt.py: the batch *)

Definition default_unique_iv : pyval := PStr (lit "00000000000000000000000000000000").

(** The body of the [for] loop of [decrypt_all_tokens]: from
    [token.get("unique_iv", ...)] to the record that is appended. *)
Definition decrypt_all_tokens_body (token : pyval) (backup_password : pystr) : io pyval :=
  unique_iv ← io_lift (py_get token (lit "unique_iv") default_unique_iv);
  kdf_rounds ← io_lift (py_getitem token (lit "key_derivation_iterations"));
  encrypted_seed_b64 ← io_lift (py_getitem token (lit "encrypted_seed"));
  salt ← io_lift (py_getitem token (lit "salt"));
  decrypted_seed ←
    (let '(evs, s) := decrypt_token kdf_rounds encrypted_seed_b64 salt
                        backup_password unique_iv in ((evs, Ok s) : io pystr));
  account_type ← io_lift (py_getitem token (lit "account_type"));
  name ← io_lift (py_getitem token (lit "name"));
  issuer ← io_lift (py_getitem token (lit "issuer"));
  digits ← io_lift (py_getitem token (lit "digits"));
  logo ← io_lift (py_getitem token (lit "logo"));
  unique_id ← io_lift (py_getitem token (lit "unique_id"));
  mret (PDict [(lit "account_type", account_type);
               (lit "name", name);
               (lit "issuer", issuer);
               (lit "decrypted_seed", PStr decrypted_seed);
               (lit "digits", digits);
               (lit "logo", logo);
               (lit "unique_id", unique_id)]).

(** The loop over the items still to come, [decrypted_tokens] being the
    list built so far. *)
Fixpoint decrypt_all_tokens_loop (tokens : list pyval) (backup_password : pystr)
    (decrypted_tokens : list pyval) : io (list pyval) :=
  match tokens with
  | [] => mret decrypted_tokens
  | token :: tokens' =>
      record ← decrypt_all_tokens_body token backup_password;
      decrypt_all_tokens_loop tokens' backup_password (decrypted_tokens ++ [record])
  end.

Definition decrypt_all_tokens (tokens : pyval) (backup_password : pystr) : io (list pyval) :=
  items ← io_lift (py_iter tokens);
  decrypt_all_tokens_loop items backup_password [].

(** ** decrypt.py: writing, and the whole run *)

Definition write_decrypted_tokens (output_file : pystr) (decrypted_tokens : list pyval)
    : io unit :=
  let output_data :=
    PDict [(lit "message", PStr (lit "success"));
           (lit "decrypted_authenticator_tokens", PList decrypted_tokens);
           (lit "success", PBool true)] in
  let failure := json_dump_file output_file output_data in
  ([FileWrite output_file output_data failure],
   match failure with None => Ok () | Some e => Raise e end).

Definition error_line (what : string) (e : exn) : event :=
  Stdout (RED ++ lit what ++ exn_str e ++ RESET_ALL).

(** The three [try] statements of [process_authenticator_data]; the
    function returns [None], what remains is what it did. *)
Definition process_authenticator_data (input_file output_file backup_password : pystr)
    : list event :=
  match load_authenticator_data input_file with
  | Raise e =>
      if is_FileNotFoundError e then [error_line "ERROR: Input file not found: " e]
      else if is_JSONDecodeError e then [error_line "ERROR: Invalid JSON format: " e]
      else if is_KeyError e then [error_line "ERROR: " e]
      else [error_line "ERROR: Failed to load input: " e]
  | Ok data =>
      match (tokens ← io_lift (py_getitem data (lit "authenticator_tokens"));
             decrypt_all_tokens tokens backup_password) with
      | (evs, Raise e) => evs ++ [error_line "ERROR: Failed during decryption: " e]
      | (evs, Ok decrypted_tokens) =>
          match write_decrypted_tokens output_file decrypted_tokens with
          | (evs', Raise e) => evs ++ evs' ++ [error_line "ERROR: Failed to write output: " e]
          | (evs', Ok _) => evs ++ evs'
          end
      end
  end.

End decrypt.

(** ** generate_uris.py: the order of the URIs

    [custom_sort] begins with a call of [verbose_output] on a constant
    string, which prints nothing; it is left out as above. *)

(** [str.lower], from the interpreter's Unicode database. *)
Class UnicodeLower := { str_lower : pystr → pystr }.

(** An item of [uri_data["URIs"]], as [handle_uri_generation] builds it:
    [{"name": unique_name, "uri": uri}], both strings. *)
Record uri_item := UriItem { item_name : pystr; item_uri : pystr }.

(** [s.rstrip(".")] *)
Definition rstrip_dots (s : pystr) : pystr :=
  rev (drop_while (λ c, bool_decide (c = 46%N)) (rev s)).

(** [a < b] on two [str]: the first code point that differs decides, a
    proper prefix comes first. *)
Fixpoint str_lt (a b : pystr) : bool :=
  match a, b with
  | _, [] => false
  | [], _ :: _ => true
  | x :: a', y :: b' =>
      if bool_decide (x < y)%N then true
      else if bool_decide (y < x)%N then false
      else str_lt a' b'
  end.

(** [s.startswith(prefix)] *)
Definition str_startswith (s prefix : pystr) : bool :=
  bool_decide (take (length prefix) s = prefix).

Section generate_uris.
Context {UL : UnicodeLower}.

Definition normalize_name (name : pystr) : pystr := str_lower (rstrip_dots name).

(** [items.sort(key=...)] with the key of [custom_sort]: the stable sort,
    which uses [<] on the keys only.  An item goes before the first item
    of the sorted rest whose key is not below its own. *)
Fixpoint sort_insert (x : uri_item) (sorted : list uri_item) : list uri_item :=
  match sorted with
  | [] => [x]
  | y :: sorted' =>
      if str_lt (normalize_name (item_name y)) (normalize_name (item_name x))
      then y :: sort_insert x sorted'
      else x :: y :: sorted'
  end.

Fixpoint sort_by_name (items : list uri_item) : list uri_item :=
  match items with
  | [] => []
  | x :: items' => sort_insert x (sort_by_name items')
  end.

(** The [while j > 0] loop of [custom_sort], entered with [j]; the two
    indices are inside the list, [j] being below [len(items)]. *)
Fixpoint custom_sort_while (items : list uri_item) (j : nat) : list uri_item :=
  match j with
  | 0 => items
  | S j' =>
      match items !! j', items !! j with
      | Some prev, Some curr =>
          let prev_name := normalize_name (item_name prev) in
          let curr_name := normalize_name (item_name curr) in
          if str_startswith prev_name curr_name
             && bool_decide (length curr_name < length prev_name)
          then custom_sort_while (<[j' := curr]> (<[j := prev]> items)) j'
          else items
      | _, _ => items
      end
  end.

(** [custom_sort]: the list as the function leaves it. *)
Definition custom_sort (items : list uri_item) : list uri_item :=
  let sorted := sort_by_name items in
  fold_left custom_sort_while (seq 1 (length sorted - 1)) sorted.

End generate_uris.

(** ** Executable collaborators

    The algorithms behind the interfaces, written out so that whole runs
    can be computed: SHA-1, HMAC and PBKDF2, the AES-256 inverse cipher
    and CBC chaining, a directory of parsed JSON files, and the Latin-1
    rows of the upper-case table.  The checks of the arguments are those
    the algorithms need; their messages are this module's. *)

Module Reference.

(** *** SHA-1 (FIPS 180-4) on 32-bit words held in [N] *)

Definition w32 (n : N) : N := N.land n 4294967295.
Definition rotl (k x : N) : N := w32 (N.lor (N.shiftl x k) (N.shiftr x (32 - k))).
Definition not32 (x : N) : N := N.lxor x 4294967295.

(** Big-endian bytes. *)
Definition be_to_N (bs : list N) : N := fold_left (λ acc b, acc * 256 + b)%N bs 0%N.
Fixpoint N_to_be (k : nat) (n : N) : list N :=
  match k with
  | 0 => []
  | S k' => N_to_be k' (n / 256) ++ [n mod 256]%N
  end.

(** Consecutive blocks of [n] elements ([fuel] bounds their number). *)
Fixpoint blocks {A} (fuel n : nat) (l : list A) : list (list A) :=
  match fuel with
  | 0 => []
  | S fuel' => match l with [] => [] | _ => take n l :: blocks fuel' n (drop n l) end
  end.

Definition sha1_pad (msg : list N) : list N :=
  let len := length msg in
  let zeros := (55 + 64 - len `mod` 64) `mod` 64 in
  msg ++ [128%N] ++ replicate zeros 0%N ++ N_to_be 8 (N.of_nat len * 8).

(** The message schedule, latest word first. *)
Fixpoint sha1_expand (n : nat) (w_rev : list N) : list N :=
  match n with
  | 0 => w_rev
  | S n' =>
      let x i := nth i w_rev 0%N in
      sha1_expand n' (rotl 1 (N.lxor (N.lxor (x 2) (x 7)) (N.lxor (x 13) (x 15))) :: w_rev)
  end.

Definition sha1_round (t : nat) (st : N * N * N * N * N) (w : N) : N * N * N * N * N :=
  let '(a, b, c, d, e) := st in
  let '(f, k) :=
    if bool_decide (t < 20) then (N.lor (N.land b c) (N.land (not32 b) d), 1518500249%N)
    else if bool_decide (t < 40) then (N.lxor (N.lxor b c) d, 1859775393%N)
    else if bool_decide (t < 60) then
      (N.lor (N.lor (N.land b c) (N.land b d)) (N.land c d), 2400959708%N)
    else (N.lxor (N.lxor b c) d, 3395469782%N) in
  (w32 (rotl 5 a + f + e + k + w), a, rotl 30 b, c, d).

Fixpoint sha1_rounds (t : nat) (ws : list N) (st : N * N * N * N * N) : N * N * N * N * N :=
  match ws with
  | [] => st
  | w :: ws' => sha1_rounds (S t) ws' (sha1_round t st w)
  end.

Definition sha1_compress (h : N * N * N * N * N) (block : list N) : N * N * N * N * N :=
  let w16 := be_to_N <$> blocks 16 4 block in
  let ws := rev (sha1_expand 64 (rev w16)) in
  let '(h0, h1, h2, h3, h4) := h in
  let '(a, b, c, d, e) := sha1_rounds 0 ws h in
  (w32 (h0 + a), w32 (h1 + b), w32 (h2 + c), w32 (h3 + d), w32 (h4 + e)).

Definition sha1 (msg : list N) : list N :=
  let padded := sha1_pad msg in
  let '(h0, h1, h2, h3, h4) :=
    fold_left sha1_compress (blocks (length padded) 64 padded)
      (1732584193, 4023233417, 2562383102, 271733878, 3285377520)%N in
  N_to_be 4 h0 ++ N_to_be 4 h1 ++ N_to_be 4 h2 ++ N_to_be 4 h3 ++ N_to_be 4 h4.

(** *** HMAC (RFC 2104) and PBKDF2 (RFC 8018) *)

Definition xor_bytes (a b : list N) : list N := zip_with N.lxor a b.

Definition hmac_sha1 (key msg : list N) : list N :=
  let k0 := if bool_decide (64 < length key) then sha1 key else key in
  let k := k0 ++ replicate (64 - length k0) 0%N in
  sha1 (xor_bytes k (replicate 64 92%N) ++ sha1 (xor_bytes k (replicate 64 54%N) ++ msg)).

(** [U_2 xor ... xor U_c] folded into [acc], [u] being the previous [U]. *)
Fixpoint pbkdf2_iter (password : list N) (c : nat) (u acc : list N) : list N :=
  match c with
  | 0 => acc
  | S c' => let u' := hmac_sha1 password u in pbkdf2_iter password c' u' (xor_bytes acc u')
  end.

Definition pbkdf2_block (password salt : list N) (c : nat) (i : nat) : list N :=
  let u1 := hmac_sha1 password (salt ++ N_to_be 4 (N.of_nat i)) in
  pbkdf2_iter password (c - 1) u1 u1.

Definition pbkdf2_hmac_sha1 (password salt : list N) (c dklen : nat) : list N :=
  take dklen (flat_map (pbkdf2_block password salt c) (seq 1 ((dklen + 19) / 20))).

(** *** AES-256 (FIPS 197) on bytes held in [N], and CBC decryption *)

Definition xtime (a : N) : N :=
  let d := N.shiftl a 1 in
  if bool_decide (d < 256)%N then d else N.lxor (N.land d 255) 27.

(** Multiplication in GF(2^8), [k] bits of [b] at a time. *)
Fixpoint gmul_bits (k : nat) (a b : N) : N :=
  match k with
  | 0 => 0%N
  | S k' => N.lxor (if N.odd b then a else 0%N) (gmul_bits k' (xtime a) (N.shiftr b 1))
  end.
Definition gmul : N → N → N := gmul_bits 8.

Fixpoint gpow (a : N) (n : nat) : N :=
  match n with
  | 0 => 1%N
  | S n' => gmul a (gpow a n')
  end.

Definition rotl8 (k x : N) : N := N.land (N.lor (N.shiftl x k) (N.shiftr x (8 - k))) 255.

Definition sbox_at (x : N) : N :=
  let b := gpow x 254 in
  N.lxor (N.lxor (N.lxor b (rotl8 1 b)) (N.lxor (rotl8 2 b) (rotl8 3 b))) (N.lxor (rotl8 4 b) 99).

Definition sbox_table : list N :=
  Eval vm_compute in (λ i, sbox_at (N.of_nat i)) <$> seq 0 256.

Definition inv_sbox_table : list N :=
  Eval vm_compute in
    (λ y, N.of_nat (default 0 (fst <$> list_find (λ s, s = N.of_nat y) sbox_table))) <$> seq 0 256.

Definition sbox (x : N) : N := nth (N.to_nat x) sbox_table 0%N.
Definition inv_sbox (x : N) : N := nth (N.to_nat x) inv_sbox_table 0%N.

(** The key schedule: [n] more words after [w_rev], the words so far,
    latest first; [i] is the index of the next word. *)
Fixpoint expand_key (n i : nat) (rcon : N) (w_rev : list (list N)) : list (list N) :=
  match n with
  | 0 => rev w_rev
  | S n' =>
      let prev := nth 0 w_rev [] in
      let back := nth 7 w_rev [] in
      if bool_decide (i `mod` 8 = 0) then
        let t := xor_bytes (sbox <$> (drop 1 prev ++ take 1 prev)) [rcon; 0; 0; 0]%N in
        expand_key n' (S i) (xtime rcon) (xor_bytes back t :: w_rev)
      else if bool_decide (i `mod` 8 = 4) then
        expand_key n' (S i) rcon (xor_bytes back (sbox <$> prev) :: w_rev)
      else expand_key n' (S i) rcon (xor_bytes back prev :: w_rev)
  end.

(** The 15 round keys of a 32-byte key, 16 bytes each. *)
Definition round_keys (key : list N) : list (list N) :=
  let words := expand_key 52 8 1 (rev ((λ i, take 4 (drop (4 * i) key)) <$> seq 0 8)) in
  (λ r, concat (take 4 (drop (4 * r) words))) <$> seq 0 15.

(** The state is the block itself: row [r], column [c] at index [r + 4c]. *)
Definition at_ (s : list N) (i : nat) : N := nth i s 0%N.

Definition shift_rows (s : list N) : list N :=
  (λ i, at_ s (i `mod` 4 + 4 * ((i / 4 + i `mod` 4) `mod` 4))) <$> seq 0 16.
Definition inv_shift_rows (s : list N) : list N :=
  (λ i, at_ s (i `mod` 4 + 4 * ((i / 4 + 4 - i `mod` 4) `mod` 4))) <$> seq 0 16.

Definition mix_column (m : list N) (col : list N) : list N :=
  (λ r, fold_right N.lxor 0%N
          ((λ j, gmul (at_ m ((j + 4 - r) `mod` 4)) (at_ col j)) <$> seq 0 4)) <$> seq 0 4.

Definition mix_columns_with (m : list N) (s : list N) : list N :=
  flat_map (λ c, mix_column m (take 4 (drop (4 * c) s))) (seq 0 4).
Definition inv_mix_columns := mix_columns_with [14; 11; 13; 9]%N.

Definition aes_decrypt_block (rks : list (list N)) (block : list N) : list N :=
  let s14 := xor_bytes block (nth 14 rks []) in
  let s1 :=
    fold_left (λ s rk, inv_mix_columns (xor_bytes (inv_sbox <$> inv_shift_rows s) rk))
      (rev (take 13 (drop 1 rks))) s14 in
  xor_bytes (inv_sbox <$> inv_shift_rows s1) (nth 0 rks []).

(** CBC: each plaintext block is the deciphered block xor the previous
    ciphertext block, the IV for the first. *)
Fixpoint cbc_decrypt (rks : list (list N)) (prev : list N) (cblocks : list (list N)) : list N :=
  match cblocks with
  | [] => []
  | c :: cs => xor_bytes (aes_decrypt_block rks c) prev ++ cbc_decrypt rks c cs
  end.

(** *** The instances *)

#[export] Instance backend : Backend := {|
  kdf_ctx := list N * nat * nat;
  PBKDF2HMAC_SHA1 length salt iterations :=
    match iterations with
    | PInt z =>
        if bool_decide (1 ≤ z)%Z then Ok (Byte.to_N <$> salt, Z.to_nat z, Z.to_nat length)
        else Raise (Exn ValueError (lit "iterations must be a positive integer"))
    | _ => Raise (Exn TypeError (lit "iterations must be an integer"))
    end;
  kdf_derive ctx password :=
    let '(salt, c, dklen) := ctx in
    Ok (byte_of_N <$> pbkdf2_hmac_sha1 (Byte.to_N <$> password) salt c dklen);
  AES_CBC_decrypt key iv data :=
    if bool_decide (length key ≠ 32) then
      Raise (Exn ValueError (lit "Invalid key size for AES-256."))
    else if bool_decide (length iv ≠ 16) then
      Raise (Exn ValueError (lit "Invalid IV size for CBC."))
    else if bool_decide (length data `mod` 16 ≠ 0) then
      Raise (Exn ValueError
        (lit "The length of the provided data is not a multiple of the block length."))
    else
      Ok (byte_of_N <$> cbc_decrypt (round_keys (Byte.to_N <$> key)) (Byte.to_N <$> iv)
                          (blocks (length data) 16 (Byte.to_N <$> data)))
|}.

(** The rows U+0080 to U+00FF of the case table; above them the identity,
    which no example reaches. *)
#[export] Instance unicode : UnicodeData := {|
  unicode_toupper_full c :=
    if bool_decide (c = 223%N) then [83; 83]%N
    else if bool_decide (c = 181%N) then [924%N]
    else if bool_decide (c = 255%N) then [376%N]
    else if bool_decide (224 ≤ c ≤ 254)%N && negb (bool_decide (c = 247%N)) then [(c - 32)%N]
    else [c]
|}.

(** A directory: the JSON value each readable file parses to.  Writing
    succeeds. *)
Definition directory (files : list (pystr * pyval)) : FileSystem := {|
  json_load_file path :=
    match dict_lookup path files with
    | Some v => Ok v
    | None =>
        Raise (Exn FileNotFoundError
          (lit "[Errno 2] No such file or directory: " ++ py_repr_str path))
    end;
  json_dump_file _ _ := None
|}.

(** [str.lower] on the rows U+0000 to U+00FF, where it maps one character
    to one; above them the identity, which no example reaches. *)
#[export] Instance lower : UnicodeLower := {|
  str_lower s :=
    (λ c, if bool_decide (65 ≤ c ≤ 90)%N
             || bool_decide (192 ≤ c ≤ 222)%N && negb (bool_decide (c = 215%N))
          then (c + 32)%N else c) <$> s
|}.

End Reference.

(** * The vocabulary of the properties *)

(** The [InvalidPadding] condition: the two [ValueError]s that
    [remove_padding] raises by itself. *)
Definition InvalidPadding (e : exn) : Prop :=
  e = Exn ValueError (lit "Invalid padding length")
  ∨ e = Exn ValueError (lit "Invalid padding bytes").

(** A hexadecimal digit, [0-9a-fA-F]. *)
Definition is_hex_char (c : codepoint) : Prop :=
  (48 ≤ c ≤ 57 ∨ 97 ≤ c ≤ 102 ∨ 65 ≤ c ≤ 70)%N.

(** The [InvalidIV] condition for a decoded length of [n] bytes. *)
Definition InvalidIV (n : nat) : exn :=
  Exn ValueError (lit "Invalid IV length: " ++ str_of_int (Z.of_nat n)).

(** One of the 64 digits [A-Za-z0-9+/]. *)
Definition is_base64_digit (c : codepoint) : Prop := is_Some (table_a2b_base64 c).

(** Well-formed Base64 (RFC 4648): digits, then at most two pads, in whole
    groups of four characters. *)
Definition base64_well_formed (s : pystr) : bool :=
  let pad := drop_while (λ c, bool_decide (is_base64_digit c)) s in
  bool_decide (length s `mod` 4 = 0)
  && (bool_decide (pad = []) || bool_decide (pad = [BASE64_PAD])
      || bool_decide (pad = [BASE64_PAD; BASE64_PAD])).

(** Bytes of the current group already written at [quad_pos]. *)
Definition written_in_group (quad_pos : nat) : nat := quad_pos - 1.

(** The string built from the printable-ASCII bytes of the input. *)
Definition printable_ascii (data : bytes) : pystr :=
  Byte.to_N <$> filter (λ b, (32 ≤ byte_val b ≤ 126)%Z) data.

(** [s] has [n] consecutive characters of [[A-Z2-7=]] from index [i]. *)
Definition base32_run_at (s : pystr) (i n : nat) : Prop :=
  ∃ before run after,
    s = before ++ run ++ after ∧ length before = i ∧ length run = n
    ∧ Forall (λ c, is_base32_char c = true) run.

(** An input that is not valid UTF-8 (its first byte is 0xFF), with a run
    of 10 and, after a ["!"], a run of 12. *)
Definition two_runs : bytes := xff :: (byte_of_N <$> lit "AAAAAAAAAA!BBBBBBBBBBBB").

(** The fields a token record must have, in the order the loop body reads
    them: three before [decrypt_token] is called, six after. *)
Definition required_keys : list pystr :=
  lit <$> ["key_derivation_iterations"; "encrypted_seed"; "salt"; "account_type"; "name";
           "issuer"; "digits"; "logo"; "unique_id"]%string.

(** The display fields copied to the output record. *)
Definition passthrough_keys : list pystr :=
  lit <$> ["account_type"; "name"; "issuer"; "digits"; "logo"; "unique_id"]%string.

(** A token record: a JSON object with every required field. *)
Definition well_formed_token (token : pyval) : Prop :=
  ∃ d, token = PDict d ∧ Forall (λ key, is_Some (dict_lookup key d)) required_keys.

Definition field (d : list (pystr * pyval)) (key : string) : pyval :=
  default PNone (dict_lookup (lit key) d).

Definition unique_iv_of (d : list (pystr * pyval)) : pyval :=
  default default_unique_iv (dict_lookup (lit "unique_iv") d).

Definition is_FileWrite (ev : event) : bool :=
  match ev with FileWrite _ _ _ => true | _ => false end.

Section batch_vocabulary.
Context {UD : UnicodeData} {BE : Backend} {FS : FileSystem}.

(** The call of [decrypt_token] the loop body makes for the record [d]. *)
Definition token_call (backup_password : pystr) (d : list (pystr * pyval))
    : list event * pystr :=
  decrypt_token (field d "key_derivation_iterations") (field d "encrypted_seed")
    (field d "salt") backup_password (unique_iv_of d).

(** The record the loop body appends for [d] and a decrypted seed. *)
Definition token_record (d : list (pystr * pyval)) (decrypted_seed : pystr) : pyval :=
  PDict [(lit "account_type", field d "account_type");
         (lit "name", field d "name");
         (lit "issuer", field d "issuer");
         (lit "decrypted_seed", PStr decrypted_seed);
         (lit "digits", field d "digits");
         (lit "logo", field d "logo");
         (lit "unique_id", field d "unique_id")].

(** The events and the record of the loop body on one item. *)
Definition body_events (backup_password : pystr) (token : pyval) : list event :=
  (decrypt_all_tokens_body token backup_password).1.

Definition body_record (backup_password : pystr) (token : pyval) : pyval :=
  match (decrypt_all_tokens_body token backup_password).2 with
  | Ok record => record
  | Raise _ => PNone
  end.

End batch_vocabulary.

(** The keys of an output record, in the order of the dictionary display
    of [decrypt_all_tokens]. *)
Definition output_keys : list pystr :=
  lit <$> ["account_type"; "name"; "issuer"; "decrypted_seed"; "digits"; "logo";
           "unique_id"]%string.

(** [a] may stand before [b] in the order of [custom_sort]: the normalised
    name of [b] is not below that of [a]. *)
Definition name_le `{UnicodeLower} (a b : uri_item) : Prop :=
  str_lt (normalize_name (item_name b)) (normalize_name (item_name a)) = false.

(** ** A sample backup

    Records encrypted under the passphrase ["hunter2 backup"] with the
    reference algorithms: one with its own IV, one without [unique_iv],
    one whose [encrypted_seed] is not Base64, one without [logo], one with
    an empty ciphertext; and two input files. *)

Module Sample.
Import Reference.

Definition backup_password : pystr := lit "hunter2 backup".

Definition display_fields (name unique_id : string) : list (pystr * pyval) :=
  [(lit "account_type", PStr (lit "authenticator"));
   (lit "name", PStr (lit name));
   (lit "issuer", PStr (lit "Example"));
   (lit "digits", PInt 6);
   (lit "logo", PStr (lit "example"));
   (lit "unique_id", PStr (lit unique_id))].

Definition token_own_iv : list (pystr * pyval) :=
  display_fields "alice" "1001"
  ++ [(lit "encrypted_seed", PStr (lit "d4b537GYCxYKgbTFXgqQWK+rLjzdlCm+rxdFrXIU/fM="));
      (lit "salt", PStr (lit "s4ltA"));
      (lit "key_derivation_iterations", PInt 3);
      (lit "unique_iv", PStr (lit "0f0e0d0c0b0a09080706050403020100"))].

Definition token_no_iv : list (pystr * pyval) :=
  display_fields "bob" "1002"
  ++ [(lit "encrypted_seed", PStr (lit "Ew4ddRVh1hXIxFjsAt/Oaw=="));
      (lit "salt", PStr (lit "s4ltB"));
      (lit "key_derivation_iterations", PInt 2)].

Definition token_corrupted : list (pystr * pyval) :=
  display_fields "carol" "1003"
  ++ [(lit "encrypted_seed", PStr (lit "not-base64!"));
      (lit "salt", PStr (lit "s4ltA"));
      (lit "key_derivation_iterations", PInt 3)].

(** [token_no_iv] without its [logo]. *)
Definition token_no_logo : list (pystr * pyval) :=
  filter (λ kv, kv.1 ≠ lit "logo") token_no_iv.

(** A record whose ciphertext is empty. *)
Definition token_empty_seed : list (pystr * pyval) :=
  display_fields "dave" "1004"
  ++ [(lit "encrypted_seed", PStr []);
      (lit "salt", PStr (lit "s4ltB"));
      (lit "key_derivation_iterations", PInt 2)].

Definition batch : list pyval :=
  [PDict token_own_iv; PDict token_corrupted; PDict token_no_iv].

Definition corrupted_message : pystr :=
  lit "Invalid base64-encoded string: number of data characters (9) cannot be 1 more than a multiple of 4".

(** The input file of the second sample: a corrupted record, then one
    without [logo]. *)
Definition input_missing_logo : FileSystem :=
  directory
    [(lit "authenticator_tokens.json",
      PDict [(lit "authenticator_tokens",
              PList [PDict token_corrupted; PDict token_no_logo])])].

(** The input file that holds the batch. *)
Definition input_batch : FileSystem :=
  directory [(lit "authenticator_tokens.json", PDict [(lit "authenticator_tokens", PList batch)])].

(** An input file without the top-level key. *)
Definition input_missing_tokens : FileSystem :=
  directory [(lit "authenticator_tokens.json", PDict [(lit "tokens", PList [])])].

End Sample.

(** * Properties *)

(** ** The stages on concrete inputs *)

Lemma verbose_output_silent (true_string : pystr) : verbose_output true_string [] = [].
Proof. reflexivity. Qed.

Example decode_base64_seed_text :
  decode_base64_seed (PStr (lit "QUJD")) = Ok [x41; x42; x43].
Proof. reflexivity. Qed.

Example decode_base64_seed_padded :
  decode_base64_seed (PStr (lit "QUI=")) = Ok [x41; x42].
Proof. reflexivity. Qed.

Example decode_base64_seed_one_extra :
  decode_base64_seed (PStr (lit "QUJDR"))
  = Raise (Exn binascii_Error
      (lit "Invalid base64-encoded string: number of data characters (5) cannot be 1 more than a multiple of 4")).
Proof. reflexivity. Qed.

Example decode_base64_seed_unpadded :
  decode_base64_seed (PStr (lit "QUI")) = Raise (Exn binascii_Error (lit "Incorrect padding")).
Proof. reflexivity. Qed.

Example get_iv_mixed_case :
  get_iv (PStr (lit "000102030405060708090a0b0c0d0e0F"))
  = Ok [x00; x01; x02; x03; x04; x05; x06; x07; x08; x09; x0a; x0b; x0c; x0d; x0e; x0f].
Proof. reflexivity. Qed.

Example get_iv_not_hex :
  get_iv (PStr (lit "0g"))
  = Raise (Exn ValueError (lit "non-hexadecimal number found in fromhex() arg at position 1")).
Proof. reflexivity. Qed.

Example get_iv_odd_digits :
  get_iv (PStr (lit "abc"))
  = Raise (Exn ValueError (lit "non-hexadecimal number found in fromhex() arg at position 3")).
Proof. reflexivity. Qed.

Example get_iv_spaced :
  get_iv (PStr (lit "0001 0203 0405 0607 0809 0a0b 0c0d 0e0f"))
  = Ok [x00; x01; x02; x03; x04; x05; x06; x07; x08; x09; x0a; x0b; x0c; x0d; x0e; x0f].
Proof. reflexivity. Qed.

Example get_iv_of_null :
  get_iv PNone = Raise (Exn TypeError (lit "fromhex() argument must be str, not None")).
Proof. reflexivity. Qed.

Example bytes_decode_utf8_euro :
  bytes_decode_utf8 [xe2; x82; xac; x20; xf0; x9f; x98; x80] = Ok [8364; 32; 128512]%N.
Proof. reflexivity. Qed.

Example bytes_decode_utf8_surrogate :
  bytes_decode_utf8 [x41; xed; xa0; x80]
  = Raise (Exn UnicodeDecodeError
      (lit "'utf-8' codec can't decode byte 0xed in position 1: invalid continuation byte")).
Proof. reflexivity. Qed.

Example str_encode_euro :
  str_encode [8364; 233; 128512]%N = Ok [xe2; x82; xac; xc3; xa9; xf0; x9f; x98; x80].
Proof. reflexivity. Qed.

Example str_encode_lone_surrogate :
  str_encode [97; 55296]%N
  = Raise (Exn UnicodeEncodeError
      (lit "'utf-8' codec can't encode character '\ud800' in position 1: surrogates not allowed")).
Proof. reflexivity. Qed.

(** The ladder of the seed decoder, with the reference case table. *)
Section seed_decoder_examples.
Let bytes_of (s : string) : bytes := byte_of_N <$> lit s.

Example decode_base32_text :
  decode_decrypted_seed (UD := Reference.unicode) (bytes_of "jbswy3dp ehpk3pxp")
  = Ok (lit "JBSWY3DPEHPK3PXP").
Proof. reflexivity. Qed.

Example decode_letters_and_spaces :
  decode_decrypted_seed (UD := Reference.unicode) (bytes_of "hello world")
  = Ok (lit "HELLOWORLD").
Proof. reflexivity. Qed.

Example decode_other_text :
  decode_decrypted_seed (UD := Reference.unicode) (bytes_of "hello, world 1")
  = Ok (lit "hello, world 1").
Proof. reflexivity. Qed.

Example decode_base32_line :
  decode_decrypted_seed (UD := Reference.unicode) (bytes_of "JBSWY3DP" ++ [x0a])
  = Ok (lit "JBSWY3DP" ++ [10%N]).
Proof. reflexivity. Qed.

Example decode_embedded_run :
  decode_decrypted_seed (UD := Reference.unicode)
    ([xff; x00] ++ bytes_of "MFXHI2BPMVZXI" ++ [x01; x80])
  = Ok (lit "MFXHI2BPMVZXI").
Proof. reflexivity. Qed.

Example decode_printable :
  decode_decrypted_seed (UD := Reference.unicode) (xff :: bytes_of "abc 1 abc")
  = Ok (lit "abc 1 abc").
Proof. reflexivity. Qed.

Example decode_hex :
  decode_decrypted_seed (UD := Reference.unicode) (xff :: bytes_of "abc")
  = Ok (lit "FF616263").
Proof. reflexivity. Qed.

Example decode_empty :
  decode_decrypted_seed (UD := Reference.unicode) [] = Ok [].
Proof. reflexivity. Qed.

End seed_decoder_examples.

(** The reference algorithms on published vectors: SHA-1 of ["abc"]
    (FIPS 180-4), PBKDF2-HMAC-SHA1 with 2 iterations (RFC 6070), and the
    AES-256 example of FIPS 197, appendix C.3. *)
Example sha1_abc :
  bytes_hex (byte_of_N <$> Reference.sha1 (lit "abc"))
  = lit "a9993e364706816aba3e25717850c26c9cd0d89d".
Proof. vm_compute. reflexivity. Qed.

Example pbkdf2_rfc6070 :
  bytes_hex (byte_of_N <$> Reference.pbkdf2_hmac_sha1 (lit "password") (lit "salt") 2 20)
  = lit "ea6c014dc72d6f8ccd1ed92ace1d41f0d8de8957".
Proof. vm_compute. reflexivity. Qed.

Example aes256_fips197 :
  bytes_hex (byte_of_N <$>
    Reference.aes_decrypt_block (Reference.round_keys (N.of_nat <$> seq 0 32))
      (Byte.to_N <$> [x8e; xa2; xb7; xca; x51; x67; x45; xbf; xea; xfc; x49; x90; x4b; x49;
                      x60; x89]))
  = lit "00112233445566778899aabbccddeeff".
Proof. vm_compute. reflexivity. Qed.


(** ** Bytes and slices *)

Lemma byte_to_N_lt (b : byte) : (Byte.to_N b < 256)%N.
Proof. pose proof (Byte.to_N_bounded b). lia. Qed.

Lemma byte_val_range (b : byte) : (0 ≤ byte_val b < 256)%Z.
Proof. unfold byte_val. pose proof (byte_to_N_lt b). lia. Qed.

Lemma to_N_byte_of_N (n : N) : (n < 256)%N → Byte.to_N (byte_of_N n) = n.
Proof.
  intros Hn. unfold byte_of_N. rewrite N.mod_small by done.
  destruct (Byte.of_N n) as [b|] eqn:E; simpl.
  - by apply Byte.to_of_N.
  - apply Byte.of_N_None_iff in E. lia.
Qed.

Lemma byte_of_N_to_N (b : byte) : byte_of_N (Byte.to_N b) = b.
Proof.
  unfold byte_of_N. rewrite N.mod_small by apply byte_to_N_lt.
  by rewrite Byte.of_to_N.
Qed.

Lemma byte_val_of_N (n : N) : (n < 256)%N → byte_val (byte_of_N n) = Z.of_N n.
Proof. intros Hn. unfold byte_val. by rewrite to_N_byte_of_N. Qed.

Lemma slice_bound_inside (len i : Z) :
  (0 ≤ i ≤ len)%Z → slice_bound len i = Z.to_nat i.
Proof.
  intros Hi. unfold slice_bound. rewrite bool_decide_eq_false_2 by lia.
  f_equal. lia.
Qed.

Lemma bytes_getitem_nil (i : Z) :
  bytes_getitem [] i = Raise (Exn IndexError (lit "index out of range")).
Proof.
  unfold bytes_getitem. cbn [length].
  repeat case_bool_decide; (done || lia).
Qed.

Lemma bytes_getitem_last (init : bytes) (b : byte) :
  bytes_getitem (init ++ [b]) (-1) = Ok (byte_val b).
Proof.
  unfold bytes_getitem. rewrite length_app. cbn [length].
  rewrite (bool_decide_eq_true_2 (-1 < 0)%Z) by lia.
  rewrite bool_decide_eq_true_2 by lia.
  replace (Z.to_nat (-1 + Z.of_nat (length init + 1))) with (length init + 0) by lia.
  by rewrite lookup_app_r, Nat.add_0_r, Nat.sub_diag by lia.
Qed.

(** ** The padding stripper *)

(** What [remove_padding] does on a non-empty input, by its last byte. *)
Lemma remove_padding_snoc (init : bytes) (last : byte) :
  let data := init ++ [last] in
  let n := Z.to_nat (byte_val last) in
  remove_padding data =
    if bool_decide (16 < n ∨ length data < n) then
      Raise (Exn ValueError (lit "Invalid padding length"))
    else if bool_decide (Forall (λ b, byte_val b = byte_val last) (drop (length data - n) data))
    then Ok (take (length data - n) data)
    else Raise (Exn ValueError (lit "Invalid padding bytes")).
Proof.
  intros data n. unfold remove_padding. subst data.
  rewrite bytes_getitem_last. simpl.
  pose proof (byte_val_range last) as Hr.
  set (data := init ++ [last]).
  destruct (decide (16 < n ∨ length data < n)) as [Hbad|Hok].
  - rewrite (bool_decide_eq_true_2 (16 < n ∨ _)) by done.
    destruct Hbad as [Hbad|Hbad].
    + rewrite (bool_decide_eq_true_2 (byte_val last > 16)%Z) by lia. done.
    + rewrite (bool_decide_eq_true_2 (_ < 0)%Z) by lia. by rewrite orb_true_r.
  - rewrite (bool_decide_eq_false_2 (16 < n ∨ _)) by done.
    rewrite (bool_decide_eq_false_2 (byte_val last > 16)%Z) by lia.
    rewrite (bool_decide_eq_false_2 (_ < 0)%Z) by lia. simpl.
    unfold bytes_slice_from, bytes_slice_to.
    rewrite slice_bound_inside by lia.
    replace (Z.to_nat (Z.of_nat (length data) - byte_val last)) with (length data - n) by lia.
    set (pad := drop _ data).
    destruct (decide (Forall (λ b, byte_val b = byte_val last) pad)) as [Hall|Hnall].
    + rewrite (bool_decide_eq_true_2 _ Hall).
      replace (forallb _ pad) with true; [done|].
      symmetry. apply forallb_forall. intros b Hb.
      apply bool_decide_eq_true_2. rewrite Forall_forall in Hall.
      apply Hall. by apply list_elem_of_In.
    + rewrite (bool_decide_eq_false_2 _ Hnall).
      replace (forallb _ pad) with false; [done|].
      symmetry. apply not_true_is_false. intros Hf. apply Hnall.
      rewrite forallb_forall in Hf. apply Forall_forall. intros b Hb.
      apply list_elem_of_In in Hb. specialize (Hf b Hb).
      by apply bool_decide_eq_true_1 in Hf.
Qed.

(** C2, as the code has it: a non-empty input whose last byte is 0 is
    returned unchanged; the range check of [remove_padding] has an upper
    bound only, and no padding byte is left to compare. *)
Theorem remove_padding_zero_accepted (init : bytes) :
  remove_padding (init ++ [x00]) = Ok (init ++ [x00]).
Proof.
  rewrite remove_padding_snoc. change (Z.to_nat (byte_val x00)) with 0.
  rewrite bool_decide_eq_false_2 by lia.
  rewrite Nat.sub_0_r, drop_all, take_ge by done.
  by rewrite bool_decide_eq_true_2 by constructor.
Qed.

(** C5: a well-formed padding of [n] bytes, [1 ≤ n ≤ 16], is stripped and
    the bytes before it are returned, an all-padding block giving the
    empty sequence; a last byte above 16, above the length of the input,
    or not repeated over the last [n] bytes, is an [InvalidPadding]
    failure. *)
Theorem remove_padding_correct :
  (∀ (body : bytes) (n : nat),
     1 ≤ n ≤ 16 →
     remove_padding (body ++ replicate n (byte_of_N (N.of_nat n))) = Ok body)
  ∧ remove_padding (replicate 16 x10) = Ok []
  ∧ (∀ (init : bytes) (last : byte),
       let data := init ++ [last] in
       let n := Z.to_nat (byte_val last) in
       16 < n ∨ length data < n
       ∨ ¬ Forall (λ b, byte_val b = byte_val last) (drop (length data - n) data) →
       ∃ e, remove_padding data = Raise e ∧ InvalidPadding e).
Proof.
  split; [|split].
  - intros body n Hn. destruct n as [|n]; [lia|].
    rewrite replicate_S_end, app_assoc, remove_padding_snoc.
    rewrite byte_val_of_N, <- app_assoc, <- replicate_S_end by lia.
    replace (Z.to_nat (Z.of_N (N.of_nat (S n)))) with (S n) by lia.
    rewrite length_app, length_replicate.
    rewrite bool_decide_eq_false_2 by lia.
    replace (length body + S n - S n) with (length body) by lia.
    rewrite drop_app_length, take_app_length.
    rewrite bool_decide_eq_true_2; [done|].
    apply Forall_replicate. rewrite byte_val_of_N by lia. lia.
  - reflexivity.
  - intros init last data n Hbad. subst data. rewrite remove_padding_snoc.
    fold n. case_bool_decide as Hlen.
    + eexists. split; [done|]. by left.
    + case_bool_decide as Hall.
      * exfalso. destruct Hbad as [?|[?|Hnall]]; [lia|lia|done].
      * eexists. split; [done|]. by right.
Qed.

(** C5 at work: two bytes of padding after ["AB"], then a last byte of
    17, a last byte of 4 in three bytes, and a claimed padding of 2 whose
    other byte is 3. *)
Lemma remove_padding_correct_witness :
  remove_padding [x41; x42; x02; x02] = Ok [x41; x42]
  ∧ (∃ e, remove_padding [x41; x42; x11] = Raise e ∧ InvalidPadding e)
  ∧ (∃ e, remove_padding [x41; x42; x04] = Raise e ∧ InvalidPadding e)
  ∧ (∃ e, remove_padding [x41; x02; x03; x02] = Raise e ∧ InvalidPadding e).
Proof.
  destruct remove_padding_correct as (Hstrip & _ & Hfail).
  split; [|split; [|split]].
  - apply (Hstrip [x41; x42] 2). lia.
  - apply (Hfail [x41; x42] x11). left. vm_compute. lia.
  - apply (Hfail [x41; x42] x04). right. left. vm_compute. lia.
  - apply (Hfail [x41; x02; x03] x02). right. right.
    vm_compute. intros Hall. inversion Hall as [|? ? Hhd _]. discriminate Hhd.
Defined.

(** ** The IV validator *)

Lemma hex_digit_value_Some (c : codepoint) :
  is_hex_char c → ∃ v, hex_digit_value c = Some v.
Proof.
  intros Hc. unfold hex_digit_value.
  repeat case_bool_decide; eauto. unfold is_hex_char in Hc. lia.
Qed.

Lemma hex_char_not_space (c : codepoint) : is_hex_char c → Py_ISSPACE c = false.
Proof.
  unfold is_hex_char, Py_ISSPACE. intros Hc.
  rewrite !bool_decide_eq_false_2 by lia. done.
Qed.

Lemma hex_char_ascii (c : codepoint) : is_hex_char c → is_ascii c = true.
Proof. unfold is_hex_char, is_ascii. intros Hc. apply bool_decide_eq_true_2. lia. Qed.

(** [k] pairs of digits give [k] bytes. *)
Lemma fromhex_pairs_digits (k : nat) :
  ∀ (s : pystr) (pos : Z),
    Forall is_hex_char s → length s = 2 * k →
    ∃ bs, fromhex_pairs s pos = Ok bs ∧ length bs = k.
Proof.
  induction k as [|k IH]; intros s pos Hs Hlen.
  - destruct s; [|done]. by exists [].
  - destruct s as [|c [|d s2]]; [done|simpl in Hlen; lia|].
    inversion Hs as [|? ? Hc Hs1]; subst. inversion Hs1 as [|? ? Hd Hs2]; subst.
    destruct (hex_digit_value_Some c Hc) as [top Htop].
    destruct (hex_digit_value_Some d Hd) as [bot Hbot].
    destruct (IH s2 (pos + 2)%Z Hs2) as (bs & Hbs & Hk); [simpl in Hlen; lia|].
    exists (byte_of_N (top * 16 + bot) :: bs). split; [|simpl; lia].
    cbn [fromhex_pairs]. rewrite (hex_char_not_space c Hc), Htop, Hbot, Hbs. done.
Qed.

Lemma bytes_fromhex_digits (s : pystr) (k : nat) :
  Forall is_hex_char s → length s = 2 * k →
  ∃ bs, bytes_fromhex (PStr s) = Ok bs ∧ length bs = k.
Proof.
  intros Hs Hlen. unfold bytes_fromhex.
  replace (forallb is_ascii s) with true.
  - by apply fromhex_pairs_digits.
  - symmetry. apply forallb_forall. intros c Hc.
    apply hex_char_ascii. rewrite Forall_forall in Hs. apply Hs. by apply list_elem_of_In.
Qed.

(** The digit of a value is the character it was read from, but for its
    case. *)
Lemma hex_digit_of_value (c : codepoint) (v : N) :
  hex_digit_value c = Some v → (v < 16)%N ∧ ascii_upper (hex_digit v) = ascii_upper c.
Proof.
  intros H. destruct (decide (c < 103)%N) as [Hc|Hc].
  - assert (Hk : ∃ k : nat, k < 103 ∧ c = N.of_nat k) by (exists (N.to_nat c); lia).
    destruct Hk as (k & Hk & ->).
    do 103 (destruct k as [|k];
            [vm_compute in H; first [discriminate H | injection H as <-; split; reflexivity]|]).
    lia.
  - unfold hex_digit_value in H. by rewrite !bool_decide_eq_false_2 in H by lia.
Qed.

(** The bytes read from hexadecimal digits write, in hexadecimal, these
    digits again, but for their case. *)
Lemma fromhex_pairs_text (s : pystr) :
  ∀ (pos : Z) (bs : bytes),
    Forall is_hex_char s → fromhex_pairs s pos = Ok bs →
    ascii_upper <$> bytes_hex bs = ascii_upper <$> s.
Proof.
  induction s as [s IH] using (induction_ltof1 _ (@length _)). unfold ltof in IH.
  intros pos bs Hs. destruct s as [|c [|d s2]].
  - simpl. by intros [= <-].
  - inversion Hs as [|? ? Hc _]; subst. cbn [fromhex_pairs].
    rewrite (hex_char_not_space c Hc). by destruct (hex_digit_value c).
  - inversion Hs as [|? ? Hc Hs1]; subst. inversion Hs1 as [|? ? Hd Hs2]; subst.
    cbn [fromhex_pairs]. rewrite (hex_char_not_space c Hc).
    destruct (hex_digit_value c) as [top|] eqn:Htop; [|done].
    destruct (hex_digit_value d) as [bot|] eqn:Hbot; [|done].
    destruct (fromhex_pairs s2 (pos + 2)) as [rest|e] eqn:Hrest; [|done].
    simpl. intros [= <-].
    destruct (hex_digit_of_value c top Htop) as [Htop16 Hc'].
    destruct (hex_digit_of_value d bot Hbot) as [Hbot16 Hd'].
    unfold bytes_hex. cbn [flat_map app]. rewrite to_N_byte_of_N by lia.
    replace ((top * 16 + bot) / 16)%N with top by lia.
    replace ((top * 16 + bot) mod 16)%N with bot by lia.
    rewrite !fmap_cons, Hc', Hd'. do 2 f_equal.
    apply (IH s2) with (pos := (pos + 2)%Z); [simpl; lia|done|done].
Qed.

Lemma bytes_fromhex_text (s : pystr) (bs : bytes) :
  Forall is_hex_char s → bytes_fromhex (PStr s) = Ok bs →
  ascii_upper <$> bytes_hex bs = ascii_upper <$> s.
Proof.
  intros Hs. unfold bytes_fromhex. destruct (forallb is_ascii s); [|done].
  by apply fromhex_pairs_text.
Qed.

(** C6: 32 hexadecimal digits decode to a 16-byte IV, the bytes that these
    digits write (the hexadecimal text of the IV is the input, but for the
    case of its letters); whenever the decoded length is not 16 the stage
    fails with [InvalidIV], as for 30 and 34 hexadecimal digits. *)
Theorem get_iv_correct :
  (∀ s : pystr,
     Forall is_hex_char s → length s = 32 →
     ∃ iv, get_iv (PStr s) = Ok iv ∧ length iv = 16
           ∧ ascii_upper <$> bytes_hex iv = ascii_upper <$> s)
  ∧ (∀ (unique_iv : pyval) (iv : bytes),
       bytes_fromhex unique_iv = Ok iv → length iv ≠ 16 →
       get_iv unique_iv = Raise (InvalidIV (length iv)))
  ∧ (∀ s : pystr,
       Forall is_hex_char s → length s = 30 ∨ length s = 34 →
       get_iv (PStr s) = Raise (InvalidIV (length s / 2))).
Proof.
  split; [|split].
  - intros s Hs Hlen.
    destruct (bytes_fromhex_digits s 16 Hs Hlen) as (iv & Hiv & Hk).
    exists iv. split; [|split; [done|by apply bytes_fromhex_text]].
    unfold get_iv. rewrite Hiv. simpl.
    by rewrite bool_decide_eq_false_2 by lia.
  - intros v iv Hiv Hlen. unfold get_iv. rewrite Hiv. simpl.
    by rewrite bool_decide_eq_true_2.
  - intros s Hs Hlen.
    assert (Hhalf : length s = 2 * (length s / 2) ∧ length s / 2 ≠ 16)
      by (destruct Hlen as [-> | ->]; by vm_compute).
    destruct Hhalf as [Heven Hne].
    destruct (bytes_fromhex_digits s (length s / 2) Hs Heven) as (iv & Hiv & Hk).
    unfold get_iv. rewrite Hiv. simpl.
    rewrite bool_decide_eq_true_2 by congruence. by rewrite Hk.
Qed.

(** C6 at work on IVs of 32, 30 and 34 hexadecimal digits. *)
Lemma get_iv_correct_witness :
  (∃ iv, get_iv (PStr (lit "000102030405060708090a0b0c0d0e0F")) = Ok iv ∧ length iv = 16
         ∧ ascii_upper <$> bytes_hex iv = lit "000102030405060708090A0B0C0D0E0F")
  ∧ get_iv (PStr (lit "000102030405060708090a0b0c0d0e")) = Raise (InvalidIV 15)
  ∧ get_iv (PStr (lit "000102030405060708090a0b0c0d0e0f10")) = Raise (InvalidIV 17).
Proof.
  destruct get_iv_correct as (H32 & _ & Hoff).
  assert (Hhex : ∀ s : pystr,
    forallb (λ c, bool_decide (is_hex_char c)) s = true → Forall is_hex_char s).
  { intros s Hs. apply Forall_forall. intros c Hc. rewrite forallb_forall in Hs.
    apply list_elem_of_In in Hc. specialize (Hs c Hc).
    by apply bool_decide_eq_true in Hs. }
  split; [|split].
  - apply (H32 (lit "000102030405060708090a0b0c0d0e0F")); [by apply Hhex; vm_compute|reflexivity].
  - apply (Hoff (lit "000102030405060708090a0b0c0d0e")); [by apply Hhex; vm_compute|].
    left. reflexivity.
  - apply (Hoff (lit "000102030405060708090a0b0c0d0e0f10")); [by apply Hhex; vm_compute|].
    right. reflexivity.
Defined.

(** ** The Base64 decoder *)

Lemma pad_not_digit : table_a2b_base64 BASE64_PAD = None.
Proof. reflexivity. Qed.

(** The decoding loop does not see the characters outside the alphabet. *)
Lemma a2b_base64_loop_filter (s : pystr) :
  ∀ (quad_pos : nat) (leftchar : N) (pads : nat) (out : bytes),
    a2b_base64_loop s quad_pos leftchar pads out =
    a2b_base64_loop (filter (λ c, c = BASE64_PAD ∨ is_base64_digit c) s)
      quad_pos leftchar pads out.
Proof.
  induction s as [|c s IH]; intros q l p out; [done|].
  rewrite filter_cons. destruct (decide _) as [Hkeep|Hdrop]; cbn [a2b_base64_loop].
  - case_bool_decide; [repeat case_bool_decide; (done || apply IH)|].
    destruct (table_a2b_base64 c); [|apply IH].
    destruct q as [|[|[|q]]]; apply IH.
  - rewrite bool_decide_eq_false_2 by tauto.
    destruct (table_a2b_base64 c) eqn:Hc; [|apply IH].
    exfalso. apply Hdrop. right. by eexists.
Qed.

(* Closes a conjunction of a count of characters and bytes, or of a count
   and the class of the error, from the same conjunction one step on. *)
Local Ltac group_arith :=
  unfold written_in_group in *;
  repeat match goal with H : _ ∧ _ |- _ => destruct H end;
  repeat match goal with H : context [length (_ ++ _)] |- _ => rewrite length_app in H end;
  cbn [length] in *;
  split; first [lia | assumption].

(** On digits alone the loop succeeds exactly when they fill whole
    groups, and gives three bytes a group. *)
Lemma a2b_base64_loop_digits (s : pystr) :
  ∀ (quad_pos : nat) (leftchar : N) (pads : nat) (out : bytes),
    quad_pos < 4 → Forall is_base64_digit s →
    match a2b_base64_loop s quad_pos leftchar pads out with
    | Ok bs =>
        (quad_pos + length s) `mod` 4 = 0
        ∧ length bs + written_in_group quad_pos
          = length out + 3 * ((quad_pos + length s) / 4)
    | Raise e => (quad_pos + length s) `mod` 4 ≠ 0 ∧ exn_cls e = binascii_Error
    end.
Proof.
  induction s as [|c s IH]; intros q l p out Hq Hs.
  - cbn [a2b_base64_loop length]. unfold written_in_group, a2b_end_error.
    repeat case_bool_decide; cbn [exn_cls]; (split; [lia|(lia || done)]).
  - inversion Hs as [|? ? [v Hv] Hs']; subst. cbn [a2b_base64_loop length].
    rewrite bool_decide_eq_false_2
      by (intros ->; rewrite pad_not_digit in Hv; discriminate).
    rewrite Hv.
    destruct q as [|[|[|q]]]; [| | |destruct q; [|lia]].
    + specialize (IH 1 v 0 out ltac:(lia) Hs').
      destruct (a2b_base64_loop s 1 v 0 out); group_arith.
    + match goal with |- context [a2b_base64_loop s 2 ?l' 0 ?o'] =>
        specialize (IH 2 l' 0 o' ltac:(lia) Hs'); destruct (a2b_base64_loop s 2 l' 0 o') end;
        group_arith.
    + match goal with |- context [a2b_base64_loop s 3 ?l' 0 ?o'] =>
        specialize (IH 3 l' 0 o' ltac:(lia) Hs'); destruct (a2b_base64_loop s 3 l' 0 o') end;
        group_arith.
    + match goal with |- context [a2b_base64_loop s 0 0 0 ?o'] =>
        specialize (IH 0 0%N 0 o' ltac:(lia) Hs'); destruct (a2b_base64_loop s 0 0 0 o') end;
        group_arith.
Qed.

Lemma forallb_is_ascii_filter (P : codepoint → Prop) `{∀ c, Decision (P c)} (s : pystr) :
  forallb is_ascii s = true → forallb is_ascii (filter P s) = true.
Proof.
  rewrite !forallb_forall. intros Hs c Hc. apply Hs.
  apply list_elem_of_In in Hc. apply list_elem_of_In.
  by apply list_elem_of_filter in Hc as [_ ?].
Qed.

(** C4, as the code has it: the decoder drops the ASCII characters that
    are neither Base64 digits nor the pad and decodes what is left; it
    fails on a [str] of digits alone exactly when their number is not a
    multiple of 4, on a [str] with a non-ASCII character, and on a value
    that is not a [str]. *)
Theorem decode_base64_seed_lenient :
  (∀ s : pystr,
     forallb is_ascii s = true →
     decode_base64_seed (PStr s)
     = decode_base64_seed (PStr (filter (λ c, c = BASE64_PAD ∨ is_base64_digit c) s)))
  ∧ (∀ s : pystr,
       Forall is_base64_digit s →
       match decode_base64_seed (PStr s) with
       | Ok bs => length s `mod` 4 = 0 ∧ length bs = 3 * (length s / 4)
       | Raise e => length s `mod` 4 ≠ 0 ∧ exn_cls e = binascii_Error
       end)
  ∧ (∀ s : pystr,
       forallb is_ascii s = false →
       decode_base64_seed (PStr s)
       = Raise (Exn ValueError (lit "string argument should contain only ASCII characters")))
  ∧ (∀ v : pyval,
       (∀ s, v ≠ PStr s) →
       ∃ e, decode_base64_seed v = Raise e ∧ exn_cls e = TypeError).
Proof.
  split; [|split; [|split]].
  - intros s Hs. unfold decode_base64_seed, b64decode.
    rewrite Hs, (forallb_is_ascii_filter _ s Hs). unfold a2b_base64.
    by rewrite <- a2b_base64_loop_filter.
  - intros s Hs. unfold decode_base64_seed, b64decode.
    replace (forallb is_ascii s) with true.
    + pose proof (a2b_base64_loop_digits s 0 0%N 0 [] ltac:(lia) Hs) as Hloop.
      unfold a2b_base64. destruct (a2b_base64_loop s 0 0 0 []); simpl in *; [|done].
      unfold written_in_group in Hloop. simpl in Hloop. lia.
    + symmetry. apply forallb_forall. intros c Hc. apply list_elem_of_In in Hc.
      rewrite Forall_forall in Hs. destruct (Hs c Hc) as [v Hv].
      unfold is_ascii. apply bool_decide_eq_true_2.
      unfold table_a2b_base64 in Hv. repeat case_bool_decide; (lia || done).
  - intros s Hs. unfold decode_base64_seed, b64decode. by rewrite Hs.
  - intros v Hv. destruct v; try (eexists; split; [reflexivity|done]).
    by destruct (Hv s).
Qed.

(** C4 at work: a text with two foreign characters, digits in whole and
    in broken groups, an accented letter, and a number. *)
Lemma decode_base64_seed_lenient_witness :
  decode_base64_seed (PStr (lit "QU*JD!")) = decode_base64_seed (PStr (lit "QUJD"))
  ∧ decode_base64_seed (PStr (lit "QUJD")) = Ok [x41; x42; x43]
  ∧ (∃ e, decode_base64_seed (PStr (lit "QUJDR")) = Raise e ∧ exn_cls e = binascii_Error)
  ∧ (∃ e, decode_base64_seed (PStr [81; 233; 74; 68]%N) = Raise e ∧ exn_cls e = ValueError)
  ∧ (∃ e, decode_base64_seed (PInt 7) = Raise e ∧ exn_cls e = TypeError).
Proof.
  destruct decode_base64_seed_lenient as (Hskip & Hdigits & Hascii & Htype).
  assert (Hd : ∀ s : pystr,
    forallb (λ c, bool_decide (is_base64_digit c)) s = true → Forall is_base64_digit s).
  { intros s Hs. apply Forall_forall. intros c Hc. rewrite forallb_forall in Hs.
    apply list_elem_of_In in Hc. specialize (Hs c Hc).
    by apply bool_decide_eq_true in Hs. }
  split; [|split; [|split; [|split]]].
  - apply (Hskip (lit "QU*JD!")). reflexivity.
  - reflexivity.
  - specialize (Hdigits (lit "QUJDR") ltac:(by apply Hd; vm_compute)).
    destruct (decode_base64_seed (PStr (lit "QUJDR"))) as [bs|e].
    + destruct Hdigits as [Hm _]. vm_compute in Hm. discriminate Hm.
    + exists e. split; [done|]. apply Hdigits.
  - eexists. split; [apply Hascii; reflexivity|done].
  - apply Htype. intros s. discriminate.
Defined.

(** C4 as stated fails: a text that is not well-formed Base64, with two
    characters outside the alphabet, is decoded. *)
Lemma decode_base64_seed_accepts_malformed :
  base64_well_formed (lit "QU*JD!") = false
  ∧ ¬ Forall is_base64_digit (lit "QU*JD!")
  ∧ decode_base64_seed (PStr (lit "QU*JD!")) = Ok [x41; x42; x43].
Proof.
  split; [reflexivity|split; [|reflexivity]].
  intros Hall. apply Forall_lookup_1 with (i := 2) (x := 42%N) in Hall; [|reflexivity].
  destruct Hall as [v Hv]. discriminate Hv.
Qed.

(** ** The seed decoder *)

(** The decoder of [bytes] fails with [UnicodeDecodeError] only. *)
Lemma utf8_decode_from_raises (n : nat) :
  ∀ (bs : list N) (pos size : Z) (e : exn),
    length bs ≤ n → utf8_decode_from bs pos size = Raise e →
    exn_cls e = UnicodeDecodeError.
Proof.
  induction n as [|n IH]; intros [|b0 r0] pos size e Hlen Hr;
    try discriminate; [simpl in Hlen; lia|].
  cbn -[N.shiftl N.land] in Hr. unfold mbind, result_bind in Hr.
  repeat case_match; simplify_eq; try reflexivity;
    (eapply IH; [|eassumption]; simpl in *; lia).
Qed.

Lemma bytes_decode_utf8_raises (data : bytes) (e : exn) :
  bytes_decode_utf8 data = Raise e → is_UnicodeDecodeError e = true.
Proof.
  intros Hr. unfold is_UnicodeDecodeError.
  by rewrite (utf8_decode_from_raises _ _ _ _ e (reflexivity _) Hr).
Qed.

(** [chr] is defined on every byte. *)
Lemma mapM_py_chr (l : bytes) :
  mapM (λ b, py_chr (byte_val b)) l = Ok ((λ b, [Byte.to_N b]) <$> l).
Proof.
  induction l as [|b l IH]; [done|].
  cbn [mapM fmap list_fmap]. rewrite IH. unfold py_chr.
  pose proof (byte_val_range b).
  rewrite bool_decide_eq_true_2 by lia.
  unfold byte_val. by rewrite N2Z.id.
Qed.

Lemma concat_singletons (l : bytes) :
  concat ((λ b, [Byte.to_N b]) <$> l) = Byte.to_N <$> l.
Proof.
  induction l as [|b l IH]; [done|].
  rewrite !fmap_cons. cbn [concat app]. by rewrite IH.
Qed.

Lemma take_drop_while {A} (p : A → bool) (l : list A) :
  take_while p l ++ drop_while p l = l.
Proof. induction l as [|x l IH]; [done|]. simpl. destruct (p x); simpl; congruence. Qed.

Lemma take_while_Forall {A} (p : A → bool) (l : list A) :
  Forall (λ x, p x = true) (take_while p l).
Proof.
  induction l as [|x l IH]; simpl; [constructor|].
  destruct (p x) eqn:Hx; by constructor.
Qed.

(** A run followed by the end of the text, or by a character outside the
    class, is what the greedy quantifier takes. *)
Lemma take_while_run {A} (p : A → bool) (run after : list A) :
  Forall (λ x, p x = true) run →
  (after = [] ∨ ∃ c after', after = c :: after' ∧ p c = false) →
  take_while p (run ++ after) = run.
Proof.
  intros Hrun Hafter. induction Hrun as [|x run Hx _ IH]; simpl.
  - destruct Hafter as [-> | (c & after' & -> & Hc)]; [done|]. simpl. by rewrite Hc.
  - by rewrite Hx, IH.
Qed.

Section seed_decoder.
Context {UD : UnicodeData}.

Lemma str_upper_ascii (s : pystr) :
  Forall (λ c, is_ascii c = true) s → str_upper s = ascii_upper <$> s.
Proof.
  induction 1 as [|c s Hc _ IH]; [done|].
  unfold str_upper in *. simpl. by rewrite Hc, IH.
Qed.

Lemma printable_ascii_is_ascii (data : bytes) :
  Forall (λ c, is_ascii c = true) (printable_ascii data).
Proof.
  apply Forall_fmap, Forall_forall. intros b Hb.
  apply list_elem_of_filter in Hb as [Hb _]. simpl.
  apply bool_decide_eq_true_2. unfold byte_val in Hb. lia.
Qed.

(** What the decoder does once UTF-8 decoding has failed. *)
Lemma decode_decrypted_seed_fallback (data : bytes) (e : exn) :
  bytes_decode_utf8 data = Raise e →
  decode_decrypted_seed data =
    match re_search_base32 (ascii_upper <$> printable_ascii data) with
    | Some base32_match => Ok base32_match
    | None =>
        if bool_decide (8 ≤ length (printable_ascii data)) then Ok (printable_ascii data)
        else Ok (str_upper (bytes_hex data))
    end.
Proof.
  intros Hr. unfold decode_decrypted_seed. rewrite Hr. cbn [mbind result_bind].
  rewrite (bytes_decode_utf8_raises _ _ Hr), mapM_py_chr. cbn [mbind result_bind].
  rewrite concat_singletons. fold (printable_ascii data).
  by rewrite (str_upper_ascii _ (printable_ascii_is_ascii data)).
Qed.

Lemma re_search_base32_unfold (s : pystr) :
  re_search_base32 s =
    if bool_decide (10 ≤ length (take_while is_base32_char s))
    then Some (take_while is_base32_char s)
    else match s with [] => None | _ :: s' => re_search_base32 s' end.
Proof. by destruct s. Qed.

(** A greedy run of [n] characters or more is a run of [n] characters. *)
Lemma take_while_base32_run_at (s : pystr) (n : nat) :
  n ≤ length (take_while is_base32_char s) → base32_run_at s 0 n.
Proof.
  intros Hn. pose proof (take_while_Forall is_base32_char s) as Hall.
  exists [], (take n (take_while is_base32_char s)),
    (drop n (take_while is_base32_char s) ++ drop_while is_base32_char s).
  split; [|split; [done|split]].
  - by rewrite app_nil_l, app_assoc, take_drop, take_drop_while.
  - rewrite length_take. lia.
  - by apply Forall_take.
Qed.

Lemma base32_run_at_cons (c : codepoint) (s : pystr) (i n : nat) :
  base32_run_at s i n → base32_run_at (c :: s) (S i) n.
Proof.
  intros (before & run & after & -> & <- & <- & Hrun).
  by exists (c :: before), run, after.
Qed.

(** A run, as the slice it is. *)
Lemma base32_run_at_slice (s : pystr) (i n : nat) :
  base32_run_at s i n →
  length (take n (drop i s)) = n ∧ forallb is_base32_char (take n (drop i s)) = true.
Proof.
  intros (before & run & after & -> & <- & <- & Hrun).
  rewrite drop_app_length, take_app_length. split; [done|].
  apply forallb_forall. intros c Hc. apply list_elem_of_In in Hc.
  rewrite Forall_forall in Hrun. by apply Hrun.
Qed.

(** [re.search] returns the first run of 10 characters or more, whole. *)
Lemma re_search_base32_first (before run after : pystr) :
  Forall (λ c, is_base32_char c = true) run → 10 ≤ length run →
  (after = [] ∨ ∃ c after', after = c :: after' ∧ is_base32_char c = false) →
  (∀ i, i < length before → ¬ base32_run_at (before ++ run ++ after) i 10) →
  re_search_base32 (before ++ run ++ after) = Some run.
Proof.
  intros Hrun Hlen Hafter. induction before as [|c before IH]; intros Hfirst.
  - rewrite app_nil_l, re_search_base32_unfold, take_while_run by done.
    by rewrite bool_decide_eq_true_2.
  - rewrite re_search_base32_unfold. rewrite bool_decide_eq_false_2.
    + apply IH. intros i Hi Hat. apply (Hfirst (S i)); [simpl; lia|].
      by apply base32_run_at_cons.
    + intros Hten. apply (Hfirst 0); [simpl; lia|].
      by apply take_while_base32_run_at.
Qed.

(** C3, as the code has it: when the input is not valid UTF-8, the result
    is the first run of 10 or more characters of [[A-Z2-7=]] in the
    upper-cased printable-ASCII string, taken to its end: the run has no
    run of 10 starting before it and no character of the class after it. *)
Theorem decode_decrypted_seed_first_run (data : bytes) (before run after : pystr) :
  is_Ok (bytes_decode_utf8 data) = false →
  str_upper (printable_ascii data) = before ++ run ++ after →
  Forall (λ c, is_base32_char c = true) run → 10 ≤ length run →
  (after = [] ∨ ∃ c after', after = c :: after' ∧ is_base32_char c = false) →
  (∀ i, i < length before → ¬ base32_run_at (before ++ run ++ after) i 10) →
  decode_decrypted_seed data = Ok run.
Proof.
  intros Hdec Hsplit Hrun Hlen Hafter Hfirst.
  destruct (bytes_decode_utf8 data) as [?|e] eqn:He; [discriminate|].
  rewrite (decode_decrypted_seed_fallback _ _ He).
  rewrite <- (str_upper_ascii _ (printable_ascii_is_ascii data)), Hsplit.
  by rewrite re_search_base32_first.
Qed.

(** C8: the seed decoder returns a string on every input: the only
    exception its stages can raise is the [UnicodeDecodeError] that it
    handles itself. *)
Theorem decode_decrypted_seed_total (data : bytes) :
  ∃ s, decode_decrypted_seed data = Ok s.
Proof.
  destruct (bytes_decode_utf8 data) as [utf8_result|e] eqn:Hdec.
  - unfold decode_decrypted_seed. rewrite Hdec. cbn [mbind result_bind].
    destruct (re_match_base32 _); eauto.
  - rewrite (decode_decrypted_seed_fallback _ _ Hdec).
    destruct (re_search_base32 _); [eauto|]. case_bool_decide; eauto.
Qed.

End seed_decoder.

(** C3 as stated fails: the upper-cased printable string of [two_runs]
    has a run of 12 characters at index 11, and the decoder returns the
    run of 10 before it. *)
Lemma decode_decrypted_seed_not_longest :
  is_Ok (bytes_decode_utf8 two_runs) = false
  ∧ base32_run_at (str_upper (UD := Reference.unicode) (printable_ascii two_runs)) 11 12
  ∧ decode_decrypted_seed (UD := Reference.unicode) two_runs = Ok (lit "AAAAAAAAAA")
  ∧ length (lit "AAAAAAAAAA") = 10.
Proof.
  split; [reflexivity|split; [|split; reflexivity]].
  exists (lit "AAAAAAAAAA!"), (lit "BBBBBBBBBBBB"), [].
  split; [reflexivity|split; [reflexivity|split; [reflexivity|]]].
  apply Forall_forall. intros c Hc. apply list_elem_of_In in Hc.
  assert (Hall : forallb is_base32_char (lit "BBBBBBBBBBBB") = true) by reflexivity.
  rewrite forallb_forall in Hall. by apply Hall.
Qed.

(** C3 at work: noise, a short run, ["1"], and the run that is returned. *)
Lemma decode_decrypted_seed_first_run_witness :
  decode_decrypted_seed (UD := Reference.unicode)
    ([xff; x01] ++ (byte_of_N <$> lit "abc1mfxhi2bpmvzxi") ++ [x80; x20; x41])
  = Ok (lit "MFXHI2BPMVZXI").
Proof.
  apply (decode_decrypted_seed_first_run _ (lit "ABC1") (lit "MFXHI2BPMVZXI") (lit " A")).
  - reflexivity.
  - reflexivity.
  - apply Forall_forall. intros c Hc. apply list_elem_of_In in Hc.
    assert (Hall : forallb is_base32_char (lit "MFXHI2BPMVZXI") = true) by reflexivity.
    rewrite forallb_forall in Hall. by apply Hall.
  - vm_compute. lia.
  - right. by exists 32%N, (lit "A").
  - intros i Hi Hat. apply base32_run_at_slice in Hat as [_ Hat].
    do 4 (destruct i as [|i]; [discriminate Hat|]). vm_compute in Hi. lia.
Defined.

(** ** One token and the batch *)

Lemma dict_lookup_cons_eq (key : pystr) (v : pyval) (d : list (pystr * pyval)) :
  dict_lookup key ((key, v) :: d) = Some v.
Proof. simpl. by rewrite bool_decide_eq_true_2. Qed.

Lemma dict_lookup_cons_ne (key k : pystr) (v : pyval) (d : list (pystr * pyval)) :
  k ≠ key → dict_lookup key ((k, v) :: d) = dict_lookup key d.
Proof. intros Hne. simpl. by rewrite bool_decide_eq_false_2. Qed.

(* Looks a literal key up in a dictionary written out with literal keys. *)
Ltac dict_lookup_lit :=
  repeat first
    [ rewrite dict_lookup_cons_eq
    | rewrite dict_lookup_cons_ne by (by vm_compute) ].

Section batch.
Context {UD : UnicodeData} {BE : Backend} {FS : FileSystem}.

(** The loop body on a JSON object: it raises the [KeyError] of the first
    required field that is missing, before the call of [decrypt_token]
    for the first three, after it for the others. *)
Lemma decrypt_all_tokens_body_dict (d : list (pystr * pyval)) (backup_password : pystr) :
  decrypt_all_tokens_body (PDict d) backup_password =
    match list_find (λ key, dict_lookup key d = None) required_keys with
    | None =>
        ((token_call backup_password d).1,
         Ok (token_record d (token_call backup_password d).2))
    | Some (i, key) =>
        (if bool_decide (i < 3) then [] else (token_call backup_password d).1,
         Raise (mk_KeyError key))
    end.
Proof.
  unfold decrypt_all_tokens_body, token_record, token_call, field, unique_iv_of,
    py_get, py_getitem, io_lift, required_keys.
  cbn [fmap list_fmap list_find].
  repeat match goal with
  | |- context [dict_lookup (lit ?k) d] =>
      lazymatch k with
      | "unique_iv"%string => fail
      | _ => destruct (dict_lookup (lit k) d) eqn:?; cbn [decide option_eq_None_dec fmap option_fmap option_map prod_map fst snd default from_option mbind io_bind mret io_ret app]
      end
  end;
  try reflexivity;
  destruct (decrypt_token _ _ _ _ _) as [evs seed];
  cbn [fst snd mbind io_bind mret io_ret app bool_decide decide_rel];
  rewrite ?app_nil_r; reflexivity.
Qed.

Lemma list_find_required_None (d : list (pystr * pyval)) :
  Forall (λ key, is_Some (dict_lookup key d)) required_keys →
  list_find (λ key, dict_lookup key d = None) required_keys = None.
Proof.
  intros Hall. apply list_find_None. eapply Forall_impl; [exact Hall|].
  intros key [v Hv]. simpl. congruence.
Qed.

(** On a token record the loop body makes its call and builds its record. *)
Lemma decrypt_all_tokens_body_well_formed (d : list (pystr * pyval))
    (backup_password : pystr) :
  Forall (λ key, is_Some (dict_lookup key d)) required_keys →
  decrypt_all_tokens_body (PDict d) backup_password =
    ((token_call backup_password d).1,
     Ok (token_record d (token_call backup_password d).2)).
Proof.
  intros Hall. by rewrite decrypt_all_tokens_body_dict, list_find_required_None.
Qed.

(** Over token records the loop is a map: one record for each, in order. *)
Lemma decrypt_all_tokens_loop_well_formed (tokens : list pyval) (backup_password : pystr) :
  Forall well_formed_token tokens →
  ∀ decrypted_tokens,
    decrypt_all_tokens_loop tokens backup_password decrypted_tokens =
      (flat_map (body_events backup_password) tokens,
       Ok (decrypted_tokens ++ (body_record backup_password <$> tokens))).
Proof.
  induction 1 as [|token tokens (d & -> & Hd) _ IH]; intros acc.
  - simpl. by rewrite app_nil_r.
  - cbn [decrypt_all_tokens_loop flat_map fmap list_fmap].
    unfold body_events at 1, body_record at 1.
    rewrite (decrypt_all_tokens_body_well_formed d backup_password Hd).
    cbn [mbind io_bind fst snd]. rewrite IH. by rewrite <- app_assoc.
Qed.

(** The loop stops at the first item on which its body raises. *)
Lemma decrypt_all_tokens_loop_raises (good : list pyval) (bad : pyval) (rest : list pyval)
    (backup_password : pystr) (evs : list event) (e : exn) :
  Forall well_formed_token good →
  decrypt_all_tokens_body bad backup_password = (evs, Raise e) →
  ∀ decrypted_tokens,
    decrypt_all_tokens_loop (good ++ bad :: rest) backup_password decrypted_tokens =
      (flat_map (body_events backup_password) good ++ evs, Raise e).
Proof.
  intros Hgood Hbad. induction Hgood as [|token good (d & -> & Hd) _ IH]; intros acc.
  - cbn [app decrypt_all_tokens_loop flat_map]. by rewrite Hbad.
  - cbn [app decrypt_all_tokens_loop flat_map]. unfold body_events at 1.
    rewrite (decrypt_all_tokens_body_well_formed d backup_password Hd).
    cbn [mbind io_bind fst snd]. rewrite IH. by rewrite <- app_assoc.
Qed.

Lemma body_record_well_formed (d : list (pystr * pyval)) (backup_password : pystr) :
  Forall (λ key, is_Some (dict_lookup key d)) required_keys →
  body_record backup_password (PDict d)
  = token_record d (token_call backup_password d).2.
Proof.
  intros Hd. unfold body_record.
  by rewrite (decrypt_all_tokens_body_well_formed d backup_password Hd).
Qed.

(** [decrypt_token] returns what its [try] block returns, or the failure
    text of what the block raises. *)
Lemma decrypt_token_result (kdf_rounds encrypted_seed_b64 salt : pyval)
    (passphrase : pystr) (unique_iv : pyval) :
  (decrypt_token kdf_rounds encrypted_seed_b64 salt passphrase unique_iv).2 =
    match decrypt_token_try kdf_rounds encrypted_seed_b64 salt passphrase unique_iv with
    | Ok decrypted_seed => decrypted_seed
    | Raise e => lit "Decryption failed: " ++ exn_str e
    end.
Proof. unfold decrypt_token. by destruct (decrypt_token_try _ _ _ _ _). Qed.

Lemma token_record_passthrough (d : list (pystr * pyval)) (decrypted_seed : pystr)
    (key : pystr) :
  Forall (λ key, is_Some (dict_lookup key d)) required_keys →
  key ∈ passthrough_keys →
  ∃ r, token_record d decrypted_seed = PDict r ∧ dict_lookup key r = dict_lookup key d.
Proof.
  intros Hd Hkey. eexists. split; [reflexivity|].
  assert (Hfield : ∀ k : string,
    lit k ∈ required_keys → Some (field d k) = dict_lookup (lit k) d).
  { intros k Hk. rewrite Forall_forall in Hd. destruct (Hd _ Hk) as [v Hv].
    unfold field. by rewrite Hv. }
  unfold passthrough_keys in Hkey. cbn [fmap list_fmap] in Hkey.
  repeat (apply elem_of_cons in Hkey as [-> | Hkey];
          [dict_lookup_lit; apply Hfield; unfold required_keys; cbn [fmap list_fmap];
           repeat (first [apply list_elem_of_here | apply list_elem_of_further])|]).
  by apply elem_of_nil in Hkey.
Qed.

(** C1: a batch of [N] token records gives [N] output records in the
    order of the input; each carries the display fields of its own token
    and, as [decrypted_seed], what the pipeline of that token returned or
    ["Decryption failed: "] followed by what it raised, whatever happened
    to the other tokens. *)
Theorem decrypt_all_tokens_per_token (tokens : list pyval) (backup_password : pystr) :
  Forall well_formed_token tokens →
  ∃ evs out,
    decrypt_all_tokens (PList tokens) backup_password = (evs, Ok out)
    ∧ length out = length tokens
    ∧ ∀ (i : nat) (d : list (pystr * pyval)),
        tokens !! i = Some (PDict d) →
        ∃ r, out !! i = Some (PDict r)
          ∧ (∀ key, key ∈ passthrough_keys → dict_lookup key r = dict_lookup key d)
          ∧ dict_lookup (lit "decrypted_seed") r = Some (PStr
              match decrypt_token_try (field d "key_derivation_iterations")
                      (field d "encrypted_seed") (field d "salt") backup_password
                      (unique_iv_of d) with
              | Ok decrypted_seed => decrypted_seed
              | Raise e => lit "Decryption failed: " ++ exn_str e
              end).
Proof.
  intros Hwf. unfold decrypt_all_tokens, py_iter, io_lift. cbn [mbind io_bind].
  rewrite (decrypt_all_tokens_loop_well_formed tokens backup_password Hwf []).
  cbn [app]. do 2 eexists. split; [reflexivity|]. split; [by rewrite length_fmap|].
  intros i d Hi. rewrite list_lookup_fmap, Hi. cbn [fmap option_fmap option_map].
  rewrite Forall_lookup in Hwf. destruct (Hwf i _ Hi) as (d' & [= <-] & Hd).
  rewrite (body_record_well_formed d backup_password Hd).
  eexists. split; [reflexivity|]. split.
  - intros key Hkey.
    destruct (token_record_passthrough d (token_call backup_password d).2 key Hd Hkey)
      as (r & [= <-] & Hr). exact Hr.
  - unfold token_call. rewrite decrypt_token_result. reflexivity.
Qed.

(** The default IV is valid: 16 zero bytes. *)
Lemma get_iv_default : get_iv default_unique_iv = Ok (replicate 16 x00).
Proof. reflexivity. Qed.

(** C7: a token record without [unique_iv] is decrypted with the default
    IV string of 32 zeros, which passes the IV validator as 16 zero bytes;
    its [decrypted_seed] is what [decrypt_token] returns for that IV, the
    pipeline running from the Base64 decoder to the seed decoder. *)
Theorem missing_unique_iv_defaults (tokens : list pyval) (backup_password : pystr)
    (i : nat) (d : list (pystr * pyval)) :
  Forall well_formed_token tokens →
  tokens !! i = Some (PDict d) →
  dict_lookup (lit "unique_iv") d = None →
  let kdf_rounds := field d "key_derivation_iterations" in
  let encrypted_seed_b64 := field d "encrypted_seed" in
  let salt := field d "salt" in
  get_iv (PStr (lit "00000000000000000000000000000000")) = Ok (replicate 16 x00)
  ∧ (∃ evs out r,
       decrypt_all_tokens (PList tokens) backup_password = (evs, Ok out)
       ∧ out !! i = Some (PDict r)
       ∧ dict_lookup (lit "decrypted_seed") r = Some (PStr
           (decrypt_token kdf_rounds encrypted_seed_b64 salt backup_password
              (PStr (lit "00000000000000000000000000000000"))).2))
  ∧ decrypt_token_try kdf_rounds encrypted_seed_b64 salt backup_password
      (PStr (lit "00000000000000000000000000000000"))
    = (encrypted_seed ← decode_base64_seed encrypted_seed_b64;
       key ← derive_key kdf_rounds salt backup_password;
       decrypted_data ← decrypt_data encrypted_seed key (replicate 16 x00);
       decrypted_seed_without_padding ← remove_padding decrypted_data;
       decode_decrypted_seed decrypted_seed_without_padding).
Proof.
  intros Hwf Hi Hiv kdf_rounds encrypted_seed_b64 salt.
  split; [exact get_iv_default|split].
  - unfold decrypt_all_tokens, py_iter, io_lift. cbn [mbind io_bind].
    rewrite (decrypt_all_tokens_loop_well_formed tokens backup_password Hwf []).
    cbn [app]. do 3 eexists. split; [reflexivity|].
    rewrite list_lookup_fmap, Hi. cbn [fmap option_fmap option_map].
    rewrite Forall_lookup in Hwf. destruct (Hwf i _ Hi) as (d' & [= <-] & Hd).
    rewrite (body_record_well_formed d backup_password Hd).
    split; [reflexivity|]. dict_lookup_lit.
    unfold token_call, unique_iv_of. by rewrite Hiv.
  - unfold decrypt_token_try. fold default_unique_iv. rewrite get_iv_default.
    by destruct (decode_base64_seed encrypted_seed_b64).
Qed.

(** C10: on the empty input [remove_padding] fails in reading the last
    byte, with an [IndexError] that is not the [InvalidPadding] condition;
    when the decrypted data is empty, [decrypt_token] reports that
    exception and returns its text as the failure of the token. *)
Theorem remove_padding_empty_caught (kdf_rounds encrypted_seed_b64 salt : pyval)
    (passphrase : pystr) (unique_iv : pyval) (encrypted_seed iv key : bytes) :
  let e := Exn IndexError (lit "index out of range") in
  remove_padding [] = Raise e
  ∧ ¬ InvalidPadding e
  ∧ (decode_base64_seed encrypted_seed_b64 = Ok encrypted_seed →
     get_iv unique_iv = Ok iv →
     derive_key kdf_rounds salt passphrase = Ok key →
     decrypt_data encrypted_seed key iv = Ok [] →
     decrypt_token_try kdf_rounds encrypted_seed_b64 salt passphrase unique_iv = Raise e
     ∧ decrypt_token kdf_rounds encrypted_seed_b64 salt passphrase unique_iv
       = ([Stdout (RED ++ lit "ERROR: Decryption failed with exception: IndexError: "
                   ++ lit "index out of range" ++ RESET_ALL);
           Stderr_traceback e],
          lit "Decryption failed: index out of range")).
Proof.
  intros e. split; [reflexivity|split].
  - intros [He|He]; discriminate He.
  - intros Hseed Hiv Hkey Hdata.
    assert (Htry : decrypt_token_try kdf_rounds encrypted_seed_b64 salt passphrase unique_iv
                   = Raise e).
    { unfold decrypt_token_try. rewrite Hseed. cbn [mbind result_bind].
      rewrite Hiv. cbn [mbind result_bind]. rewrite Hkey. cbn [mbind result_bind].
      rewrite Hdata. reflexivity. }
    split; [exact Htry|]. unfold decrypt_token. rewrite Htry. reflexivity.
Qed.

(** Nothing the loop body does is a write to a file. *)
Lemma body_events_no_write (backup_password : pystr) (token : pyval) :
  Forall (λ ev, is_FileWrite ev = false) (body_events backup_password token).
Proof.
  unfold body_events. destruct token; try by constructor.
  rewrite decrypt_all_tokens_body_dict.
  assert (Hcall : Forall (λ ev, is_FileWrite ev = false) (token_call backup_password d).1).
  { unfold token_call, decrypt_token. destruct (decrypt_token_try _ _ _ _ _); simpl.
    - constructor.
    - by repeat constructor. }
  destruct (list_find _ _) as [[i key]|]; [|done].
  cbn [fst]. by case_bool_decide.
Qed.

(** On a record without one of its required fields, the loop body raises
    a [KeyError]. *)
Lemma decrypt_all_tokens_body_missing (bad : list (pystr * pyval)) (backup_password : pystr)
    (key : pystr) :
  key ∈ required_keys → dict_lookup key bad = None →
  ∃ evs e,
    decrypt_all_tokens_body (PDict bad) backup_password = (evs, Raise e)
    ∧ exn_cls e = KeyError.
Proof.
  intros Hkey Hmiss. rewrite decrypt_all_tokens_body_dict.
  destruct (list_find _ _) as [[i k]|] eqn:Hfind.
  - by do 2 eexists.
  - rewrite list_find_None, Forall_forall in Hfind. by destruct (Hfind key Hkey).
Qed.

(** A record with its three decryption fields goes through
    [decrypt_token], whatever else it lacks. *)
Lemma body_events_after_call (bad : list (pystr * pyval)) (backup_password : pystr) :
  (∀ key, key ∈ take 3 required_keys → is_Some (dict_lookup key bad)) →
  body_events backup_password (PDict bad) = (token_call backup_password bad).1.
Proof.
  intros Hthree. unfold body_events. rewrite decrypt_all_tokens_body_dict.
  destruct (list_find _ _) as [[i key]|] eqn:Hfind; [|done].
  apply list_find_Some in Hfind as (Hi & Hnone & _). cbn [fst].
  case_bool_decide as Hlt; [|done].
  destruct (Hthree key) as [v Hv]; [|congruence].
  apply list_elem_of_lookup. exists i. by rewrite lookup_take_lt.
Qed.

(** C9, as the code has it: a missing required key is fatal to the batch:
    the run ends with a report of the error and writes no file.  When the
    key is the top-level one, the report is all the run does; when it is a
    field of a token, the run has by then gone through the tokens before
    it, and through the body of the loop on that token up to the missing
    field. *)
Theorem missing_key_is_fatal (input_file output_file backup_password : pystr)
    (data : pyval) :
  json_load_file input_file = Ok data →
  (py_contains (lit "authenticator_tokens") data = Ok false →
   process_authenticator_data input_file output_file backup_password
   = [error_line "ERROR: " (mk_KeyError missing_tokens_message)])
  ∧ (∀ (d : list (pystr * pyval)) (good : list pyval) (bad : list (pystr * pyval))
       (rest : list pyval) (key : pystr),
       data = PDict d →
       dict_lookup (lit "authenticator_tokens") d = Some (PList (good ++ PDict bad :: rest)) →
       Forall well_formed_token good →
       key ∈ required_keys → dict_lookup key bad = None →
       ∃ e,
         exn_cls e = KeyError
         ∧ process_authenticator_data input_file output_file backup_password
           = flat_map (body_events backup_password) good
             ++ body_events backup_password (PDict bad)
             ++ [error_line "ERROR: Failed during decryption: " e]
         ∧ Forall (λ ev, is_FileWrite ev = false)
             (process_authenticator_data input_file output_file backup_password)
         ∧ ((∀ k, k ∈ take 3 required_keys → is_Some (dict_lookup k bad)) →
            body_events backup_password (PDict bad) = (token_call backup_password bad).1)).
Proof.
  intros Hload. split.
  - intros Habsent. unfold process_authenticator_data, load_authenticator_data.
    rewrite Hload. cbn [mbind result_bind]. rewrite Habsent. reflexivity.
  - intros d good bad rest key -> Htokens Hgood Hkey Hmiss.
    destruct (decrypt_all_tokens_body_missing bad backup_password key Hkey Hmiss)
      as (evs & e & Hbody & He).
    exists e. split; [exact He|].
    assert (Hrun : process_authenticator_data input_file output_file backup_password
                   = flat_map (body_events backup_password) good
                     ++ body_events backup_password (PDict bad)
                     ++ [error_line "ERROR: Failed during decryption: " e]).
    { unfold process_authenticator_data, load_authenticator_data.
      rewrite Hload. cbn [mbind result_bind py_contains].
      rewrite Htokens. rewrite bool_decide_eq_true_2 by by eexists.
      cbn [negb py_getitem]. rewrite Htokens.
      unfold decrypt_all_tokens, py_iter, io_lift. cbn [mbind io_bind].
      rewrite (decrypt_all_tokens_loop_raises good (PDict bad) rest backup_password
                 evs e Hgood Hbody []).
      cbn [app]. replace (body_events backup_password (PDict bad)) with evs
        by (unfold body_events; by rewrite Hbody).
      by rewrite <- app_assoc. }
    split; [exact Hrun|]. split; [|apply body_events_after_call]. rewrite Hrun.
    apply Forall_app. split; [|apply Forall_app; split].
    + apply Forall_flat_map, Forall_forall. intros t _. apply body_events_no_write.
    + apply body_events_no_write.
    + by repeat constructor.
Qed.

End batch.

(** ** Runs on a sample backup

    Three records encrypted under the passphrase ["hunter2 backup"] with
    the reference algorithms: one with its own IV, one without
    [unique_iv], and one whose [encrypted_seed] is not Base64. *)

Module Examples.
Import Reference Sample.

Lemma well_formed_token_dict (d : list (pystr * pyval)) :
  forallb (λ key, bool_decide (is_Some (dict_lookup key d))) required_keys = true →
  well_formed_token (PDict d).
Proof.
  intros Hall. exists d. split; [done|]. apply Forall_forall. intros key Hkey.
  rewrite forallb_forall in Hall. apply list_elem_of_In in Hkey.
  specialize (Hall key Hkey). by apply bool_decide_eq_true in Hall.
Qed.

Lemma batch_well_formed : Forall well_formed_token batch.
Proof. repeat constructor; by apply well_formed_token_dict; vm_compute. Qed.

(** The three stages that need the algorithms, on the first record. *)
Example token_own_iv_decrypts :
  decrypt_token_try (PInt 3) (PStr (lit "d4b537GYCxYKgbTFXgqQWK+rLjzdlCm+rxdFrXIU/fM="))
    (PStr (lit "s4ltA")) backup_password (PStr (lit "0f0e0d0c0b0a09080706050403020100"))
  = Ok (lit "JBSWY3DPEHPK3PXP").
Proof. vm_compute. reflexivity. Qed.

(** The whole batch: the secrets of the first and third records, the
    failure text of the second, in the order of the input. *)
Example batch_run :
  (decrypt_all_tokens (PList batch) backup_password).2
  = Ok [token_record token_own_iv (lit "JBSWY3DPEHPK3PXP");
        token_record token_corrupted (lit "Decryption failed: " ++ corrupted_message);
        token_record token_no_iv (lit "MFXHI2BPMVZXI")].
Proof. vm_compute. reflexivity. Qed.

(** The whole run on the batch: the report of the second record's
    failure, then one write of the three records. *)
Example batch_file_run :
  process_authenticator_data (FS := input_batch)
    (lit "authenticator_tokens.json") (lit "decrypted_tokens.json") backup_password
  = [Stdout (RED ++ lit "ERROR: Decryption failed with exception: Error: "
             ++ corrupted_message ++ RESET_ALL);
     Stderr_traceback (Exn binascii_Error corrupted_message);
     FileWrite (lit "decrypted_tokens.json")
       (PDict [(lit "message", PStr (lit "success"));
               (lit "decrypted_authenticator_tokens",
                PList [token_record token_own_iv (lit "JBSWY3DPEHPK3PXP");
                       token_record token_corrupted
                         (lit "Decryption failed: " ++ corrupted_message);
                       token_record token_no_iv (lit "MFXHI2BPMVZXI")]);
               (lit "success", PBool true)])
       None].
Proof. vm_compute. reflexivity. Qed.

(** C1 at work on the sample batch. *)
Lemma decrypt_all_tokens_per_token_witness :
  Forall well_formed_token batch
  ∧ ∃ evs out,
      decrypt_all_tokens (PList batch) backup_password = (evs, Ok out)
      ∧ length out = length batch
      ∧ ∀ (i : nat) (d : list (pystr * pyval)),
          batch !! i = Some (PDict d) →
          ∃ r, out !! i = Some (PDict r)
            ∧ (∀ key, key ∈ passthrough_keys → dict_lookup key r = dict_lookup key d)
            ∧ dict_lookup (lit "decrypted_seed") r = Some (PStr
                match decrypt_token_try (field d "key_derivation_iterations")
                        (field d "encrypted_seed") (field d "salt") backup_password
                        (unique_iv_of d) with
                | Ok decrypted_seed => decrypted_seed
                | Raise e => lit "Decryption failed: " ++ exn_str e
                end).
Proof.
  split; [exact batch_well_formed|].
  exact (decrypt_all_tokens_per_token batch backup_password batch_well_formed).
Defined.

(** C7 at work: the third record of the batch has no [unique_iv]. *)
Lemma missing_unique_iv_defaults_witness :
  dict_lookup (lit "unique_iv") token_no_iv = None
  ∧ get_iv (PStr (lit "00000000000000000000000000000000")) = Ok (replicate 16 x00)
  ∧ ∃ evs out r,
      decrypt_all_tokens (PList batch) backup_password = (evs, Ok out)
      ∧ out !! 2 = Some (PDict r)
      ∧ dict_lookup (lit "decrypted_seed") r = Some (PStr
          (decrypt_token (field token_no_iv "key_derivation_iterations")
             (field token_no_iv "encrypted_seed") (field token_no_iv "salt")
             backup_password (PStr (lit "00000000000000000000000000000000"))).2).
Proof.
  split; [reflexivity|].
  destruct (missing_unique_iv_defaults batch backup_password 2 token_no_iv
              batch_well_formed (reflexivity _) (reflexivity _)) as (Hiv & Hrun & _).
  split; [exact Hiv|exact Hrun].
Defined.

(** With the zero IV the third record decrypts to its secret. *)
Example token_no_iv_decrypts :
  (decrypt_token (field token_no_iv "key_derivation_iterations")
     (field token_no_iv "encrypted_seed") (field token_no_iv "salt")
     backup_password (PStr (lit "00000000000000000000000000000000"))).2
  = lit "MFXHI2BPMVZXI".
Proof. vm_compute. reflexivity. Qed.

(** The record with an empty ciphertext, in a batch of its own. *)
Example empty_seed_run :
  (decrypt_all_tokens (PList [PDict token_empty_seed]) backup_password).2
  = Ok [token_record token_empty_seed (lit "Decryption failed: index out of range")].
Proof. vm_compute. reflexivity. Qed.

(** C10 at work: an empty ciphertext decrypts to the empty sequence. *)
Lemma remove_padding_empty_caught_witness :
  decrypt_token (PInt 2) (PStr []) (PStr (lit "s4ltB")) backup_password default_unique_iv
  = ([Stdout (RED ++ lit "ERROR: Decryption failed with exception: IndexError: "
              ++ lit "index out of range" ++ RESET_ALL);
      Stderr_traceback (Exn IndexError (lit "index out of range"))],
     lit "Decryption failed: index out of range").
Proof.
  destruct (derive_key (PInt 2) (PStr (lit "s4ltB")) backup_password) as [key|e] eqn:Hkey;
    [|by vm_compute in Hkey].
  refine (proj2 (proj2 (proj2 (remove_padding_empty_caught (PInt 2) (PStr [])
            (PStr (lit "s4ltB")) backup_password default_unique_iv [] (replicate 16 x00) key))
          _ _ _ _)).
  - reflexivity.
  - reflexivity.
  - exact Hkey.
  - unfold derive_key in Hkey. vm_compute in Hkey. injection Hkey as <-. reflexivity.
Defined.

(** C9 at work: without the top-level key the report is the whole run;
    without [logo] in the second record, the run ends on the report of
    the [KeyError] and writes nothing. *)
Lemma missing_key_is_fatal_witness :
  process_authenticator_data (FS := input_missing_tokens)
    (lit "authenticator_tokens.json") (lit "decrypted_tokens.json") backup_password
  = [error_line "ERROR: " (mk_KeyError missing_tokens_message)]
  ∧ ∃ e,
      exn_cls e = KeyError
      ∧ process_authenticator_data (FS := input_missing_logo)
          (lit "authenticator_tokens.json") (lit "decrypted_tokens.json") backup_password
        = flat_map (body_events backup_password) [PDict token_corrupted]
          ++ body_events backup_password (PDict token_no_logo)
          ++ [error_line "ERROR: Failed during decryption: " e]
      ∧ Forall (λ ev, is_FileWrite ev = false)
          (process_authenticator_data (FS := input_missing_logo)
             (lit "authenticator_tokens.json") (lit "decrypted_tokens.json")
             backup_password)
      ∧ ((∀ k, k ∈ take 3 required_keys → is_Some (dict_lookup k token_no_logo)) →
         body_events backup_password (PDict token_no_logo)
         = (token_call backup_password token_no_logo).1).
Proof.
  split.
  - refine (proj1 (missing_key_is_fatal (FS := input_missing_tokens)
              (lit "authenticator_tokens.json") (lit "decrypted_tokens.json")
              backup_password _ (reflexivity _)) _).
    reflexivity.
  - refine (proj2 (missing_key_is_fatal (FS := input_missing_logo)
              (lit "authenticator_tokens.json") (lit "decrypted_tokens.json")
              backup_password _ (reflexivity _))
            _ [PDict token_corrupted] token_no_logo [] (lit "logo")
            (reflexivity _) (reflexivity _) _ _ (reflexivity _)).
    + repeat constructor. by apply well_formed_token_dict; vm_compute.
    + unfold required_keys. cbn [fmap list_fmap].
      repeat (first [apply list_elem_of_here | apply list_elem_of_further]).
Defined.

(** C9 as stated fails: the second record has no [logo], and the run did
    not stop before the tokens: the first record went through
    [decrypt_token], whose failure is reported before the batch is given
    up; nothing is written. *)
Lemma missing_field_aborts_midway :
  dict_lookup (lit "logo") token_no_logo = None
  ∧ process_authenticator_data (FS := input_missing_logo)
      (lit "authenticator_tokens.json") (lit "decrypted_tokens.json") backup_password
    = [Stdout (RED ++ lit "ERROR: Decryption failed with exception: Error: "
               ++ corrupted_message ++ RESET_ALL);
       Stderr_traceback (Exn binascii_Error corrupted_message);
       Stdout (RED ++ lit "ERROR: Failed during decryption: 'logo'" ++ RESET_ALL)].
Proof. split; vm_compute; reflexivity. Qed.

End Examples.

(** ** More on the padding stripper *)

Lemma byte_val_inj (a b : byte) : byte_val a = byte_val b → a = b.
Proof.
  unfold byte_val. intros Hab. apply N2Z.inj in Hab.
  by rewrite <- (byte_of_N_to_N a), <- (byte_of_N_to_N b), Hab.
Qed.

Lemma bytes_snoc_or_nil (data : bytes) : data = [] ∨ ∃ init last, data = init ++ [last].
Proof.
  induction data as [|b data IH] using rev_ind; [by left|]. right. by exists data, b.
Qed.

(** X1: when [remove_padding] succeeds, what it removed is a run of [n]
    bytes of value [n] with [n ≤ 16], and what it returns is the rest. *)
Theorem remove_padding_sound (data out : bytes) :
  remove_padding data = Ok out →
  ∃ n, n ≤ 16 ∧ data = out ++ replicate n (byte_of_N (N.of_nat n)).
Proof.
  intros Hok. destruct (bytes_snoc_or_nil data) as [-> | (init & last & ->)].
  - discriminate Hok.
  - rewrite remove_padding_snoc in Hok.
    set (data := init ++ [last]) in *. set (n := Z.to_nat (byte_val last)) in *.
    case_bool_decide as Hlen; [discriminate|].
    case_bool_decide as Hall; [|discriminate]. injection Hok as <-.
    exists n. split; [lia|].
    rewrite <- (take_drop (length data - n) data) at 1. f_equal.
    symmetry. apply replicate_as_Forall_2.
    + rewrite length_drop. lia.
    + eapply Forall_impl; [exact Hall|]. intros b Hb. simpl in Hb.
      apply byte_val_inj. rewrite Hb, byte_val_of_N.
      * pose proof (byte_val_range last). lia.
      * pose proof (byte_val_range last). lia.
Qed.

Lemma remove_padding_sound_witness :
  ∃ n, n ≤ 16 ∧ [x41; x42; x03; x03; x03] = [x41; x42] ++ replicate n (byte_of_N (N.of_nat n)).
Proof. apply (remove_padding_sound [x41; x42; x03; x03; x03] [x41; x42]). reflexivity. Defined.

(** ** Hexadecimal text and back *)

Lemma hex_digit_value_hex_digit (n : N) :
  (n < 16)%N →
  hex_digit_value (hex_digit n) = Some n
  ∧ hex_digit_value (ascii_upper (hex_digit n)) = Some n
  ∧ Py_ISSPACE (hex_digit n) = false
  ∧ Py_ISSPACE (ascii_upper (hex_digit n)) = false
  ∧ is_ascii (hex_digit n) = true.
Proof.
  intros Hn.
  assert (H : ∃ k : nat, k < 16 ∧ n = N.of_nat k) by (exists (N.to_nat n); lia).
  destruct H as (k & Hk & ->).
  do 16 (destruct k as [|k]; [vm_compute; repeat split|]). lia.
Qed.

Lemma byte_of_nibbles (b : byte) :
  byte_of_N (Byte.to_N b / 16 * 16 + Byte.to_N b mod 16) = b.
Proof.
  rewrite <- (byte_of_N_to_N b) at 3. f_equal.
  pose proof (N.div_mod (Byte.to_N b) 16 ltac:(done)). lia.
Qed.

Lemma fromhex_pairs_hex (up : bool) (data : bytes) :
  ∀ pos, fromhex_pairs ((if up then ascii_upper else id) <$> bytes_hex data) pos = Ok data.
Proof.
  induction data as [|b data IH]; intros pos; [done|].
  pose proof (byte_to_N_lt b) as Hb.
  destruct (hex_digit_value_hex_digit (Byte.to_N b / 16)) as (Hh & HhU & Hs & HsU & _);
    [apply N.Div0.div_lt_upper_bound; lia|].
  destruct (hex_digit_value_hex_digit (Byte.to_N b mod 16)) as (Hl & HlU & _);
    [apply N.mod_lt; lia|].
  unfold bytes_hex. cbn [flat_map app fmap list_fmap]. fold (bytes_hex data).
  cbn [fromhex_pairs].
  destruct up; cbn [id].
  - rewrite HsU, HhU, HlU, IH. cbn [mbind result_bind]. by rewrite byte_of_nibbles.
  - rewrite Hs, Hh, Hl, IH. cbn [mbind result_bind]. by rewrite byte_of_nibbles.
Qed.

Lemma bytes_hex_ascii (up : bool) (data : bytes) :
  forallb is_ascii ((if up then ascii_upper else id) <$> bytes_hex data) = true.
Proof.
  apply forallb_forall. intros c Hc. apply list_elem_of_In, list_elem_of_fmap in Hc
    as (c' & -> & Hc').
  unfold bytes_hex in Hc'. apply list_elem_of_In, in_flat_map in Hc' as (b & _ & Hc').
  pose proof (byte_to_N_lt b) as Hb.
  assert (Hd : ∃ n, (n < 16)%N ∧ c' = hex_digit n).
  { destruct Hc' as [<- | [<- | []]]; eexists; (split; [|reflexivity]).
    - apply N.Div0.div_lt_upper_bound; lia.
    - apply N.mod_lt; lia. }
  destruct Hd as (n & Hn & ->).
  unfold is_ascii. apply bool_decide_eq_true_2.
  unfold ascii_upper, hex_digit. destruct up; cbn [id]; repeat case_bool_decide; lia.
Qed.

Lemma bytes_fromhex_hex (up : bool) (data : bytes) :
  bytes_fromhex (PStr ((if up then ascii_upper else id) <$> bytes_hex data)) = Ok data.
Proof. unfold bytes_fromhex. by rewrite bytes_hex_ascii, fromhex_pairs_hex. Qed.

Lemma bytes_hex_upper {UD : UnicodeData} (data : bytes) :
  str_upper (bytes_hex data) = ascii_upper <$> bytes_hex data.
Proof.
  apply str_upper_ascii, Forall_forall. intros c Hc.
  pose proof (bytes_hex_ascii false data) as Hall. cbn [id] in Hall.
  rewrite list_fmap_id in Hall. rewrite forallb_forall in Hall.
  apply Hall. by apply list_elem_of_In.
Qed.

Lemma get_iv_of_hex_lower (data : bytes) :
  get_iv (PStr (bytes_hex data))
  = if bool_decide (length data = 16) then Ok data else Raise (InvalidIV (length data)).
Proof.
  unfold get_iv. pose proof (bytes_fromhex_hex false data) as Hh. cbn [id] in Hh.
  rewrite list_fmap_id in Hh. rewrite Hh. cbn [mbind result_bind].
  repeat case_bool_decide; done.
Qed.

(** X2: the IV validator reads back the hexadecimal text of any bytes, in
    lower or upper case: it returns them when they are 16 and fails with
    [InvalidIV] on their number otherwise. *)
Theorem get_iv_of_hex (data : bytes) (up : bool) :
  get_iv (PStr ((if up then ascii_upper else id) <$> bytes_hex data))
  = if bool_decide (length data = 16) then Ok data else Raise (InvalidIV (length data)).
Proof.
  unfold get_iv. rewrite bytes_fromhex_hex. cbn [mbind result_bind].
  repeat case_bool_decide; done.
Qed.

Lemma fromhex_pairs_length (s : pystr) :
  ∀ pos out, fromhex_pairs s pos = Ok out → 2 * length out ≤ length s.
Proof.
  induction s as [s IH] using (induction_ltof1 _ (@length _)). unfold ltof in IH.
  intros pos out. destruct s as [|c s1]; simpl.
  - intros [= <-]. simpl. lia.
  - destruct (Py_ISSPACE c).
    { intros H. apply IH in H; simpl; lia. }
    destruct (hex_digit_value c) as [top|]; [|done].
    destruct s1 as [|d s2]; [done|].
    destruct (hex_digit_value d) as [bot|]; [|done].
    destruct (fromhex_pairs s2 (pos + 2)) as [rest|e] eqn:Hrest; [|done].
    intros [= <-]. apply IH in Hrest; simpl in *; lia.
Qed.

(** X19: whatever value [get_iv] is given, a result it returns has exactly
    16 bytes, and the value was a string of ASCII characters, at least 32 of
    them. *)
Theorem get_iv_sound (unique_iv : pyval) (iv : bytes) :
  get_iv unique_iv = Ok iv →
  length iv = 16
  ∧ ∃ s, unique_iv = PStr s ∧ forallb is_ascii s = true ∧ 32 ≤ length s.
Proof.
  unfold get_iv. destruct (bytes_fromhex unique_iv) as [bs|e] eqn:Hhex; [|done].
  simpl. case_bool_decide as Hlen; [done|]. intros [= <-].
  assert (Hbs : length bs = 16) by (destruct (decide (length bs = 16)); done).
  split; [done|].
  destruct unique_iv as [| | | |s| |]; try done. simpl in Hhex.
  exists s. split; [done|].
  destruct (forallb is_ascii s); [|done]. split; [done|].
  apply fromhex_pairs_length in Hhex. lia.
Qed.

Lemma get_iv_sound_witness :
  get_iv (PStr (lit "000102030405060708090a0b0c0d0e0f")) =
    Ok [x00; x01; x02; x03; x04; x05; x06; x07; x08; x09; x0a; x0b; x0c; x0d; x0e; x0f]
  ∧ length [x00; x01; x02; x03; x04; x05; x06; x07; x08; x09; x0a; x0b; x0c; x0d; x0e; x0f] = 16.
Proof.
  split; [reflexivity|].
  apply (get_iv_sound (PStr (lit "000102030405060708090a0b0c0d0e0f"))). reflexivity.
Defined.

(** ** More on the seed decoder *)

Lemma utf8_decode_from_ascii (bs : list N) :
  ∀ pos size, Forall (λ b, (b < 128)%N) bs → utf8_decode_from bs pos size = Ok bs.
Proof.
  induction bs as [|b bs IH]; intros pos size Hbs; [done|].
  inversion Hbs as [|? ? Hb Hbs']; subst. cbn [utf8_decode_from].
  rewrite bool_decide_eq_true_2 by done. by rewrite IH.
Qed.

(** Decoding yields at least one character for a non-empty input. *)
Lemma utf8_decode_from_nil (bs : list N) (pos size : Z) :
  utf8_decode_from bs pos size = Ok [] → bs = [].
Proof.
  destruct bs as [|b0 r0]; [done|]. intros Hr. exfalso.
  cbn -[N.shiftl N.land] in Hr. unfold mbind, result_bind in Hr.
  repeat case_match; simplify_eq.
Qed.

Lemma take_while_all {A} (p : A → bool) (l : list A) :
  Forall (λ x, p x = true) l → take_while p l = l ∧ drop_while p l = [].
Proof.
  induction 1 as [|x l Hx _ [IHt IHd]]; [done|]. simpl. rewrite Hx. by rewrite IHt, IHd.
Qed.

Lemma drop_while_head {A} (p : A → bool) (l : list A) (x : A) (l' : list A) :
  drop_while p l = x :: l' → p x = false.
Proof.
  induction l as [|y l IH]; [done|]. simpl. destruct (p y) eqn:Hy; [done|].
  by intros [= -> _].
Qed.

(** A text that [re.match] accepts is made of the class, but for a final
    newline. *)
Lemma re_match_base32_chars (s : pystr) (c : codepoint) :
  re_match_base32 s = true → c ∈ s → is_base32_char c = true ∨ c = 10%N.
Proof.
  unfold re_match_base32. intros Hm Hc.
  apply andb_true_iff in Hm as [_ Hrest]. rewrite <- (take_drop_while is_base32_char s) in Hc.
  apply elem_of_app in Hc as [Hc|Hc].
  - left. pose proof (take_while_Forall is_base32_char s) as Hall.
    rewrite Forall_forall in Hall. by apply Hall.
  - right. apply orb_true_iff in Hrest as [Hrest|Hrest];
      apply bool_decide_eq_true in Hrest; rewrite Hrest in Hc.
    + by apply elem_of_nil in Hc.
    + by apply list_elem_of_singleton in Hc.
Qed.

Lemma re_match_base32_all (s : pystr) :
  Forall (λ c, is_base32_char c = true) s → s ≠ [] → re_match_base32 s = true.
Proof.
  intros Hall Hne. unfold re_match_base32.
  destruct (take_while_all is_base32_char s Hall) as [-> ->].
  rewrite bool_decide_eq_true_2 by done. by rewrite (bool_decide_eq_true_2 (_ = [])).
Qed.

Lemma take_while_length {A} (p : A → bool) (l : list A) :
  length (take_while p l) ≤ length l.
Proof. induction l as [|x l IH]; [done|]. simpl. destruct (p x); simpl; lia. Qed.

Lemma re_search_base32_length (s : pystr) :
  ∀ r, re_search_base32 s = Some r → 10 ≤ length r ∧ length r ≤ length s.
Proof.
  induction s as [|c s IH]; intros r; rewrite re_search_base32_unfold.
  - case_bool_decide; [|done]. simpl in *. lia.
  - case_bool_decide as Hten.
    + intros [= <-]. split; [done|]. apply (take_while_length _ (c :: s)).
    + intros Hr. destruct (IH r Hr). simpl. lia.
Qed.

Section seed_decoder_more.
Context {UD : UnicodeData}.

Lemma bytes_decode_utf8_ascii (data : bytes) :
  Forall (λ b, (Byte.to_N b < 128)%N) data →
  bytes_decode_utf8 data = Ok (Byte.to_N <$> data).
Proof.
  intros Hd. unfold bytes_decode_utf8. apply utf8_decode_from_ascii. by apply Forall_fmap.
Qed.

(** The decoder on ASCII text: the choice between the two ways out of the
    [try] block. *)
Lemma decode_decrypted_seed_ascii (data : bytes) :
  Forall (λ b, (Byte.to_N b < 128)%N) data →
  let text := Byte.to_N <$> data in
  decode_decrypted_seed data =
    if re_match_base32 (str_remove_spaces (ascii_upper <$> text))
    then Ok (str_remove_spaces (ascii_upper <$> text))
    else Ok text.
Proof.
  intros Hd text. unfold decode_decrypted_seed.
  rewrite (bytes_decode_utf8_ascii data Hd). cbn [mbind result_bind]. fold text.
  rewrite str_upper_ascii; [by destruct (re_match_base32 _)|].
  apply Forall_fmap. eapply Forall_impl; [exact Hd|]. intros b Hb. simpl.
  by apply bool_decide_eq_true_2.
Qed.

(** X3: ASCII text made of spaces and of characters of [[A-Za-z2-7=]], with
    at least one of these, is returned in upper case with its spaces
    removed, so that separate words come back joined. *)
Theorem decode_decrypted_seed_normalises (data : bytes) :
  let text := Byte.to_N <$> data in
  Forall (λ c, c = 32%N ∨ is_base32_char (ascii_upper c) = true) text →
  (∃ c, c ∈ text ∧ c ≠ 32%N) →
  decode_decrypted_seed data = Ok (str_remove_spaces (ascii_upper <$> text)).
Proof.
  intros text Hall (c & Hc & Hns).
  assert (Hupper : ∀ x, x = 32%N ∨ is_base32_char (ascii_upper x) = true → (x < 128)%N).
  { intros x [-> | Hx]; [done|]. unfold is_base32_char, ascii_upper in Hx.
    repeat case_bool_decide; simpl in Hx; (lia || done). }
  rewrite decode_decrypted_seed_ascii.
  - fold text. rewrite re_match_base32_all; [done| |].
    + unfold str_remove_spaces. apply Forall_forall. intros x Hx.
      apply list_elem_of_filter in Hx as [Hx32 Hx].
      apply list_elem_of_fmap in Hx as (y & -> & Hy).
      rewrite Forall_forall in Hall. destruct (Hall y Hy) as [-> | Hy']; [done|exact Hy'].
    + intros Hnil. assert (Hin : ascii_upper c ∈ str_remove_spaces (ascii_upper <$> text)).
      { unfold str_remove_spaces. apply list_elem_of_filter. split.
        - unfold ascii_upper. case_bool_decide; lia.
        - apply list_elem_of_fmap. by exists c. }
      rewrite Hnil in Hin. by apply elem_of_nil in Hin.
  - apply Forall_forall. intros b Hb. apply Hupper.
    rewrite Forall_forall in Hall. apply Hall. apply list_elem_of_fmap. by exists b.
Qed.

(** X4: ASCII text with a character, other than space and newline, outside
    [[A-Za-z2-7=]] (a digit 0, 1, 8 or 9, punctuation, a control
    character) is returned unchanged. *)
Theorem decode_decrypted_seed_unchanged (data : bytes) (c : codepoint) :
  let text := Byte.to_N <$> data in
  Forall (λ x, (x < 128)%N) text →
  c ∈ text → c ≠ 32%N → c ≠ 10%N → is_base32_char (ascii_upper c) = false →
  decode_decrypted_seed data = Ok text.
Proof.
  intros text Hascii Hc Hns Hnl Hout.
  rewrite decode_decrypted_seed_ascii.
  - fold text. destruct (re_match_base32 _) eqn:Hm; [|done]. exfalso.
    assert (Hin : ascii_upper c ∈ str_remove_spaces (ascii_upper <$> text)).
    { unfold str_remove_spaces. apply list_elem_of_filter. split.
      - unfold ascii_upper. case_bool_decide; lia.
      - apply list_elem_of_fmap. by exists c. }
    destruct (re_match_base32_chars _ _ Hm Hin) as [Hcls|Hten]; [congruence|].
    unfold ascii_upper in Hten. case_bool_decide; lia.
  - apply Forall_forall. intros b Hb. rewrite Forall_forall in Hascii.
    apply Hascii. apply list_elem_of_fmap. by exists b.
Qed.

(** X5: the decoder returns the empty string for the empty input only. *)
Theorem decode_decrypted_seed_empty_iff (data : bytes) :
  decode_decrypted_seed data = Ok [] ↔ data = [].
Proof.
  split; [|by intros ->].
  destruct (bytes_decode_utf8 data) as [utf8_result|e] eqn:Hdec.
  - unfold decode_decrypted_seed. rewrite Hdec. cbn [mbind result_bind].
    destruct (re_match_base32 _) eqn:Hm.
    + intros [= Hnil]. unfold re_match_base32 in Hm. rewrite Hnil in Hm. done.
    + intros [= ->]. unfold bytes_decode_utf8 in Hdec.
      apply utf8_decode_from_nil in Hdec. by destruct data.
  - rewrite (decode_decrypted_seed_fallback _ _ Hdec).
    destruct (re_search_base32 _) as [r|] eqn:Hs.
    + intros [= ->]. apply re_search_base32_length in Hs. simpl in Hs. lia.
    + case_bool_decide as Hlen.
      * intros [= Hnil]. rewrite Hnil in Hlen. simpl in Hlen. lia.
      * rewrite bytes_hex_upper. destruct data as [|b data]; [done|]. discriminate.
Qed.

(** X6: an input that is not valid UTF-8 and has fewer than 8 printable
    bytes comes back as upper-case hexadecimal text, two digits a byte,
    from which [bytes.fromhex] gives the input again. *)
Theorem decode_decrypted_seed_hex_dump (data : bytes) :
  is_Ok (bytes_decode_utf8 data) = false →
  length (printable_ascii data) < 8 →
  let dump := ascii_upper <$> bytes_hex data in
  decode_decrypted_seed data = Ok dump
  ∧ length dump = 2 * length data
  ∧ bytes_fromhex (PStr dump) = Ok data.
Proof.
  intros Hdec Hlen dump.
  destruct (bytes_decode_utf8 data) as [?|e] eqn:He; [discriminate|].
  split; [|split].
  - rewrite (decode_decrypted_seed_fallback _ _ He).
    destruct (re_search_base32 _) as [r|] eqn:Hs.
    + apply re_search_base32_length in Hs. rewrite length_fmap in Hs. lia.
    + rewrite bool_decide_eq_false_2 by lia. by rewrite bytes_hex_upper.
  - unfold dump. rewrite length_fmap. clear. induction data as [|b data IH]; [done|].
    unfold bytes_hex in *. cbn [flat_map]. rewrite length_app, IH. simpl. lia.
  - exact (bytes_fromhex_hex true data).
Qed.

End seed_decoder_more.

Lemma decode_decrypted_seed_normalises_witness :
  decode_decrypted_seed (UD := Reference.unicode) (byte_of_N <$> lit "otp secret key")
  = Ok (lit "OTPSECRETKEY").
Proof.
  etrans; [apply (decode_decrypted_seed_normalises (byte_of_N <$> lit "otp secret key"))|
           reflexivity].
  - apply Forall_forall. intros c Hc.
    assert (Hall : forallb (λ c, bool_decide (c = 32%N ∨ is_base32_char (ascii_upper c) = true))
                     (Byte.to_N <$> (byte_of_N <$> lit "otp secret key")) = true) by reflexivity.
    rewrite forallb_forall in Hall. apply list_elem_of_In in Hc.
    specialize (Hall c Hc). by apply bool_decide_eq_true in Hall.
  - exists 111%N. split; [|done]. apply list_elem_of_here.
Defined.

Lemma decode_decrypted_seed_unchanged_witness :
  decode_decrypted_seed (UD := Reference.unicode) (byte_of_N <$> lit "pin 0189")
  = Ok (lit "pin 0189").
Proof.
  etrans; [apply (decode_decrypted_seed_unchanged (byte_of_N <$> lit "pin 0189") 48%N)|
           reflexivity].
  - apply Forall_forall. intros c Hc.
    assert (Hall : forallb (λ c, bool_decide (c < 128)%N)
                     (Byte.to_N <$> (byte_of_N <$> lit "pin 0189")) = true) by reflexivity.
    rewrite forallb_forall in Hall. apply list_elem_of_In in Hc.
    specialize (Hall c Hc). by apply bool_decide_eq_true in Hall.
  - do 4 apply list_elem_of_further. apply list_elem_of_here.
  - done.
  - done.
  - reflexivity.
Defined.

Lemma decode_decrypted_seed_hex_dump_witness :
  decode_decrypted_seed (UD := Reference.unicode) [xff; x41; x00; x7a] = Ok (lit "FF41007A")
  ∧ length (lit "FF41007A") = 2 * 4
  ∧ bytes_fromhex (PStr (lit "FF41007A")) = Ok [xff; x41; x00; x7a].
Proof.
  apply (decode_decrypted_seed_hex_dump (UD := Reference.unicode) [xff; x41; x00; x7a]).
  - reflexivity.
  - vm_compute. lia.
Defined.

(** ** More on the Base64 decoder *)

Lemma base64_digit_ascii (c : codepoint) : is_base64_digit c → is_ascii c = true.
Proof.
  intros [v Hv]. unfold is_ascii. apply bool_decide_eq_true_2.
  unfold table_a2b_base64 in Hv. repeat case_bool_decide; (lia || done).
Qed.

Lemma base64_digit_not_pad (c : codepoint) : is_base64_digit c → c ≠ BASE64_PAD.
Proof. intros [v Hv] ->. rewrite pad_not_digit in Hv. discriminate. Qed.

(** The loop over a run of digits, whatever follows: the position in the
    group and the bytes written when it reaches what follows. *)
Lemma a2b_base64_loop_digits_app (s : pystr) :
  Forall is_base64_digit s →
  ∀ (quad_pos : nat) (leftchar : N) (out : bytes),
    quad_pos < 4 →
    ∃ leftchar' out',
      (∀ rest, a2b_base64_loop (s ++ rest) quad_pos leftchar 0 out
               = a2b_base64_loop rest ((quad_pos + length s) `mod` 4) leftchar' 0 out')
      ∧ length out' + written_in_group quad_pos
        = length out + 3 * ((quad_pos + length s) / 4)
          + written_in_group ((quad_pos + length s) `mod` 4).
Proof.
  induction 1 as [|c s Hc Hs IH]; intros q l out Hq.
  - exists l, out. split.
    + intros rest. by rewrite Nat.add_0_r, Nat.mod_small.
    + cbn [length]. unfold written_in_group. lia.
  - destruct Hc as [v Hv].
    assert (Hstep : ∃ q1 l1 out1,
      q1 < 4 ∧ q1 = S q `mod` 4
      ∧ length out1 + written_in_group q = length out + 3 * (S q / 4) + written_in_group q1
      ∧ ∀ rest, a2b_base64_loop ((c :: s) ++ rest) q l 0 out
                = a2b_base64_loop (s ++ rest) q1 l1 0 out1).
    { assert (Hpad : bool_decide (c = BASE64_PAD) = false)
        by (apply bool_decide_eq_false_2, base64_digit_not_pad; by exists v).
      destruct q as [|[|[|[|q]]]]; [| | | |lia].
      all: eexists _, _, _; split; [|split; [reflexivity|split]];
        [|shelve|intros rest; cbn [app a2b_base64_loop]; rewrite Hpad, Hv; reflexivity].
      all: try (simpl; lia).
      Unshelve.
      all: rewrite ?length_app; unfold written_in_group; simpl; lia. }
    destruct Hstep as (q1 & l1 & out1 & Hq1 & Hq1' & Hlen1 & Hstep).
    destruct (IH q1 l1 out1 Hq1) as (l' & out' & Hloop & Hlen).
    exists l', out'. split.
    + intros rest. rewrite Hstep, Hloop. f_equal. cbn [length]. lia.
    + cbn [length]. unfold written_in_group in *. lia.
Qed.

(** X7: once the pad has completed a group, the decoder stops: whatever
    ASCII text follows ["="] after [4k + 3] digits, or ["=="] after
    [4k + 2] digits, is not looked at, and the result has [3k + 2] or
    [3k + 1] bytes. *)
Theorem decode_base64_seed_after_pad (s tail : pystr) :
  Forall is_base64_digit s → forallb is_ascii tail = true →
  (length s `mod` 4 = 3 →
   ∃ bs, decode_base64_seed (PStr (s ++ [BASE64_PAD] ++ tail)) = Ok bs
       ∧ decode_base64_seed (PStr (s ++ [BASE64_PAD])) = Ok bs
       ∧ length bs = 3 * (length s / 4) + 2)
  ∧ (length s `mod` 4 = 2 →
     ∃ bs, decode_base64_seed (PStr (s ++ [BASE64_PAD; BASE64_PAD] ++ tail)) = Ok bs
         ∧ decode_base64_seed (PStr (s ++ [BASE64_PAD; BASE64_PAD])) = Ok bs
         ∧ length bs = 3 * (length s / 4) + 1).
Proof.
  intros Hs Htail.
  assert (Hascii : ∀ mid rest : pystr,
    forallb is_ascii mid = true → forallb is_ascii rest = true →
    forallb is_ascii (s ++ mid ++ rest) = true).
  { intros mid rest Hmid Hrest. rewrite !forallb_app, Hmid, Hrest, !andb_true_r.
    apply forallb_forall. intros c Hc. apply base64_digit_ascii.
    rewrite Forall_forall in Hs. apply Hs. by apply list_elem_of_In. }
  destruct (a2b_base64_loop_digits_app s Hs 0 0%N [] ltac:(lia)) as (l' & out' & Hloop & Hlen).
  cbn [length Nat.add] in Hloop, Hlen. unfold written_in_group in Hlen.
  split; intros Hmod; exists out'; unfold decode_base64_seed, b64decode, a2b_base64.
  - rewrite (Hascii [BASE64_PAD] tail eq_refl Htail).
    rewrite <- (app_nil_r [BASE64_PAD]) at 2.
    rewrite (Hascii [BASE64_PAD] [] eq_refl eq_refl).
    rewrite !Hloop, Hmod. cbn [app a2b_base64_loop].
    rewrite !bool_decide_eq_true_2 by (done || lia). cbn [mbind result_bind].
    rewrite Hmod in Hlen. repeat split; (reflexivity || lia).
  - rewrite (Hascii [BASE64_PAD; BASE64_PAD] tail eq_refl Htail).
    rewrite <- (app_nil_r [BASE64_PAD; BASE64_PAD]) at 2.
    rewrite (Hascii [BASE64_PAD; BASE64_PAD] [] eq_refl eq_refl).
    rewrite !Hloop, Hmod. cbn [app a2b_base64_loop].
    rewrite !bool_decide_eq_true_2 by (done || lia). cbn [mbind result_bind].
    rewrite Hmod in Hlen. repeat split; (reflexivity || lia).
Qed.

Lemma decode_base64_seed_after_pad_witness :
  (∃ bs, decode_base64_seed (PStr (lit "QUJDREU" ++ [BASE64_PAD] ++ lit "QUJD junk")) = Ok bs
       ∧ decode_base64_seed (PStr (lit "QUJDREU" ++ [BASE64_PAD])) = Ok bs
       ∧ length bs = 3 * (length (lit "QUJDREU") / 4) + 2)
  ∧ (∃ bs, decode_base64_seed (PStr (lit "QUJDRA" ++ [BASE64_PAD; BASE64_PAD] ++ lit "=x")) = Ok bs
       ∧ decode_base64_seed (PStr (lit "QUJDRA" ++ [BASE64_PAD; BASE64_PAD])) = Ok bs
       ∧ length bs = 3 * (length (lit "QUJDRA") / 4) + 1).
Proof.
  assert (Hd : ∀ s : pystr,
    forallb (λ c, bool_decide (is_base64_digit c)) s = true → Forall is_base64_digit s).
  { intros s Hs. apply Forall_forall. intros c Hc. rewrite forallb_forall in Hs.
    apply list_elem_of_In in Hc. specialize (Hs c Hc).
    by apply bool_decide_eq_true in Hs. }
  split.
  - apply (decode_base64_seed_after_pad (lit "QUJDREU") (lit "QUJD junk"));
      [by apply Hd; vm_compute|reflexivity|reflexivity].
  - apply (decode_base64_seed_after_pad (lit "QUJDRA") (lit "=x"));
      [by apply Hd; vm_compute|reflexivity|reflexivity].
Defined.

(** ** More on the batch and on the run *)

Section batch_more.
Context {UD : UnicodeData} {BE : Backend} {FS : FileSystem}.

(** The loop on a list in two parts. *)
Lemma decrypt_all_tokens_loop_app (l1 l2 : list pyval) (backup_password : pystr) :
  ∀ decrypted_tokens,
    decrypt_all_tokens_loop (l1 ++ l2) backup_password decrypted_tokens =
      match decrypt_all_tokens_loop l1 backup_password decrypted_tokens with
      | (evs1, Ok decrypted_tokens1) =>
          let '(evs2, r) := decrypt_all_tokens_loop l2 backup_password decrypted_tokens1 in
          (evs1 ++ evs2, r)
      | (evs1, Raise e) => (evs1, Raise e)
      end.
Proof.
  induction l1 as [|token l1 IH]; intros acc.
  - cbn [app decrypt_all_tokens_loop mret io_ret].
    by destruct (decrypt_all_tokens_loop l2 backup_password acc).
  - cbn [app decrypt_all_tokens_loop].
    destruct (decrypt_all_tokens_body token backup_password) as [evs [record|e]];
      cbn [mbind io_bind]; [|done].
    rewrite IH.
    destruct (decrypt_all_tokens_loop l1 backup_password (acc ++ [record])) as [evs1 [acc1|e1]];
      [|done].
    destruct (decrypt_all_tokens_loop l2 backup_password acc1) as [evs2 r].
    by rewrite app_assoc.
Qed.

(** The records already built are a prefix of what the loop returns, and
    do not change what it adds. *)
Lemma decrypt_all_tokens_loop_acc (tokens : list pyval) (backup_password : pystr) :
  ∀ decrypted_tokens,
    decrypt_all_tokens_loop tokens backup_password decrypted_tokens =
      let '(evs, r) := decrypt_all_tokens_loop tokens backup_password [] in
      (evs, match r with Ok out => Ok (decrypted_tokens ++ out) | Raise e => Raise e end).
Proof.
  induction tokens as [|token tokens IH]; intros acc.
  - cbn [decrypt_all_tokens_loop mret io_ret]. by rewrite app_nil_r.
  - cbn [decrypt_all_tokens_loop].
    destruct (decrypt_all_tokens_body token backup_password) as [evs [record|e]];
      cbn [mbind io_bind]; [|done].
    rewrite (IH (acc ++ [record])), (IH ([] ++ [record])).
    destruct (decrypt_all_tokens_loop tokens backup_password []) as [evs' [out|e]]; [|done].
    by rewrite <- app_assoc.
Qed.

(** X8: decrypting a list in two parts is decrypting the first part and
    then the second: the events and the records follow one another, and
    when the first part fails the second is not started. *)
Theorem decrypt_all_tokens_app (l1 l2 : list pyval) (backup_password : pystr) :
  decrypt_all_tokens (PList (l1 ++ l2)) backup_password =
    match decrypt_all_tokens (PList l1) backup_password with
    | (evs1, Ok out1) =>
        let '(evs2, r2) := decrypt_all_tokens (PList l2) backup_password in
        (evs1 ++ evs2, match r2 with Ok out2 => Ok (out1 ++ out2) | Raise e => Raise e end)
    | (evs1, Raise e) => (evs1, Raise e)
    end.
Proof.
  unfold decrypt_all_tokens, py_iter, io_lift. cbn [mbind io_bind].
  rewrite decrypt_all_tokens_loop_app.
  destruct (decrypt_all_tokens_loop l1 backup_password []) as [evs1 [out1|e1]]; [|done].
  rewrite (decrypt_all_tokens_loop_acc l2 backup_password out1).
  destruct (decrypt_all_tokens_loop l2 backup_password []) as [evs2 r2].
  cbn [app]. done.
Qed.

(** No event of the loop is a write to a file. *)
Lemma decrypt_all_tokens_loop_no_write (tokens : list pyval) (backup_password : pystr) :
  ∀ decrypted_tokens,
    Forall (λ ev, is_FileWrite ev = false)
      (decrypt_all_tokens_loop tokens backup_password decrypted_tokens).1.
Proof.
  induction tokens as [|token tokens IH]; intros acc; [by constructor|].
  cbn [decrypt_all_tokens_loop].
  pose proof (body_events_no_write backup_password token) as Hbody.
  unfold body_events in Hbody.
  destruct (decrypt_all_tokens_body token backup_password) as [evs [record|e]];
    cbn [mbind io_bind fst] in *; [|done].
  specialize (IH (acc ++ [record])).
  destruct (decrypt_all_tokens_loop tokens backup_password (acc ++ [record])) as [evs' r].
  cbn [fst] in *. by apply Forall_app.
Qed.

Lemma decrypt_all_tokens_no_write (tokens : pyval) (backup_password : pystr) :
  Forall (λ ev, is_FileWrite ev = false) (decrypt_all_tokens tokens backup_password).1.
Proof.
  unfold decrypt_all_tokens, io_lift.
  destruct (py_iter tokens) as [items|e]; cbn [mbind io_bind]; [|by constructor].
  pose proof (decrypt_all_tokens_loop_no_write items backup_password []) as Hloop.
  destruct (decrypt_all_tokens_loop items backup_password []) as [evs r].
  by cbn [app fst] in *.
Qed.

(** X9: whatever the files hold and whatever the backend does, a run is a
    sequence of events none of which is a write, followed by its ending:
    one report of an error, or one write to [output_file], itself
    followed by a report when the write failed. *)
Theorem process_authenticator_data_ending (input_file output_file backup_password : pystr) :
  ∃ evs ending,
    process_authenticator_data input_file output_file backup_password = evs ++ ending
    ∧ Forall (λ ev, is_FileWrite ev = false) evs
    ∧ ((∃ line, ending = [Stdout line])
       ∨ (∃ data, ending = [FileWrite output_file data None])
       ∨ (∃ data e line, ending = [FileWrite output_file data (Some e); Stdout line])).
Proof.
  unfold process_authenticator_data.
  destruct (load_authenticator_data input_file) as [data|e].
  - destruct (py_getitem data (lit "authenticator_tokens")) as [tokens|e];
      unfold io_lift; cbn [mbind io_bind].
    + pose proof (decrypt_all_tokens_no_write tokens backup_password) as Hnw.
      destruct (decrypt_all_tokens tokens backup_password) as [evs [out|e]];
        cbn [app fst] in *.
      * unfold write_decrypted_tokens.
        match goal with |- context [json_dump_file ?p ?d] =>
          destruct (json_dump_file p d) as [e|] end.
        -- eexists evs, _. split; [reflexivity|]. split; [done|].
           right. right. by eexists _, _, _.
        -- eexists evs, _. split; [reflexivity|]. split; [done|].
           right. left. by eexists.
      * eexists evs, _. split; [reflexivity|]. split; [done|]. left. by eexists.
    + exists [], [error_line "ERROR: Failed during decryption: " e]. split; [done|].
      split; [by constructor|]. left. by eexists.
  - exists []. eexists. split; [reflexivity|]. split; [by constructor|]. left.
    repeat case_match; by eexists.
Qed.

(** X10: on an input file that holds token records, the run is the events
    of the tokens, in order, and one write to [output_file] of an object
    that says ["success"] and [true] around the list of the records,
    whatever became of the tokens; a report follows when the write
    failed. *)
Theorem process_authenticator_data_writes (input_file output_file backup_password : pystr)
    (d : list (pystr * pyval)) (tokens : list pyval) :
  json_load_file input_file = Ok (PDict d) →
  dict_lookup (lit "authenticator_tokens") d = Some (PList tokens) →
  Forall well_formed_token tokens →
  let output_data :=
    PDict [(lit "message", PStr (lit "success"));
           (lit "decrypted_authenticator_tokens",
            PList (body_record backup_password <$> tokens));
           (lit "success", PBool true)] in
  process_authenticator_data input_file output_file backup_password
  = flat_map (body_events backup_password) tokens
    ++ FileWrite output_file output_data (json_dump_file output_file output_data)
       :: match json_dump_file output_file output_data with
          | None => []
          | Some e => [error_line "ERROR: Failed to write output: " e]
          end.
Proof.
  intros Hload Htokens Hwf output_data.
  unfold process_authenticator_data, load_authenticator_data.
  rewrite Hload. cbn [mbind result_bind py_contains].
  rewrite Htokens. rewrite bool_decide_eq_true_2 by by eexists.
  cbn [negb py_getitem]. rewrite Htokens.
  unfold decrypt_all_tokens, py_iter, io_lift. cbn [mbind io_bind].
  rewrite (decrypt_all_tokens_loop_well_formed tokens backup_password Hwf []).
  cbn [app]. unfold write_decrypted_tokens. fold output_data.
  by destruct (json_dump_file output_file output_data).
Qed.

(** On token records the batch is the map of the loop body. *)
Lemma decrypt_all_tokens_well_formed (tokens : list pyval) (backup_password : pystr) :
  Forall well_formed_token tokens →
  decrypt_all_tokens (PList tokens) backup_password
  = (flat_map (body_events backup_password) tokens,
     Ok (body_record backup_password <$> tokens)).
Proof.
  intros Hwf. unfold decrypt_all_tokens, py_iter, io_lift. cbn [mbind io_bind].
  by rewrite (decrypt_all_tokens_loop_well_formed tokens backup_password Hwf []).
Qed.

(** X11: every record of the output has the seven keys of the display, in
    that order, and no other: the ciphertext, the salt, the iteration
    count and the IV of the token are not copied. *)
Theorem decrypt_all_tokens_output_keys (tokens : list pyval) (backup_password : pystr)
    (evs : list event) (out : list pyval) (record : pyval) :
  decrypt_all_tokens (PList tokens) backup_password = (evs, Ok out) →
  record ∈ out →
  ∃ r, record = PDict r ∧ r.*1 = output_keys.
Proof.
  unfold decrypt_all_tokens, py_iter, io_lift. cbn [mbind io_bind].
  assert (Hloop : ∀ tokens acc evs out,
    decrypt_all_tokens_loop tokens backup_password acc = (evs, Ok out) →
    Forall (λ record, ∃ r, record = PDict r ∧ r.*1 = output_keys) acc →
    Forall (λ record, ∃ r, record = PDict r ∧ r.*1 = output_keys) out).
  { clear. induction tokens as [|token tokens IH]; intros acc evs out Hrun Hacc.
    - cbn in Hrun. by injection Hrun as _ <-.
    - cbn [decrypt_all_tokens_loop] in Hrun.
      destruct (decrypt_all_tokens_body token backup_password) as [evs0 [record|e]] eqn:Hbody;
        cbn [mbind io_bind] in Hrun; [|done].
      destruct (decrypt_all_tokens_loop tokens backup_password (acc ++ [record]))
        as [evs1 r1] eqn:Hrest.
      injection Hrun as _ ->. apply (IH _ _ _ Hrest).
      apply Forall_app. split; [done|]. constructor; [|done].
      destruct token; try discriminate Hbody.
      rewrite decrypt_all_tokens_body_dict in Hbody.
      destruct (list_find _ _) as [[i key]|]; [discriminate|].
      injection Hbody as _ <-. by eexists. }
  intros Hrun Hin.
  destruct (decrypt_all_tokens_loop tokens backup_password []) as [evs' r] eqn:Hl.
  cbn [app] in Hrun. injection Hrun as _ ->.
  specialize (Hloop tokens [] evs' out Hl ltac:(constructor)).
  rewrite Forall_forall in Hloop. by apply Hloop.
Qed.

(** X12: an item of the list that is not a JSON object ends the batch with
    the [AttributeError] of its missing [get], after the token records
    before it have been gone through. *)
Theorem decrypt_all_tokens_item_not_object (good : list pyval) (bad : pyval)
    (rest : list pyval) (backup_password : pystr) :
  Forall well_formed_token good →
  (∀ d, bad ≠ PDict d) →
  decrypt_all_tokens (PList (good ++ bad :: rest)) backup_password
  = (flat_map (body_events backup_password) good, Raise (no_attribute bad "get")).
Proof.
  intros Hgood Hbad. unfold decrypt_all_tokens, py_iter, io_lift. cbn [mbind io_bind].
  rewrite (decrypt_all_tokens_loop_raises good bad rest backup_password []
             (no_attribute bad "get") Hgood).
  - cbn [app]. by rewrite app_nil_r.
  - destruct bad; try reflexivity. by destruct (Hbad d).
Qed.

(** X13: when the value under [authenticator_tokens] is not a list: a
    number, a boolean or [null] cannot be iterated; an empty object or an
    empty string is an empty batch; any other object or string is iterated
    over keys or characters, which are strings and have no [get]. *)
Theorem decrypt_all_tokens_not_a_list (backup_password : pystr) :
  (∀ tokens,
     match tokens with PList _ | PDict _ | PStr _ => False | _ => True end →
     decrypt_all_tokens tokens backup_password
     = ([], Raise (Exn TypeError
                     (lit "'" ++ py_type_name tokens ++ lit "' object is not iterable"))))
  ∧ decrypt_all_tokens (PDict []) backup_password = ([], Ok [])
  ∧ decrypt_all_tokens (PStr []) backup_password = ([], Ok [])
  ∧ (∀ key v d,
       decrypt_all_tokens (PDict ((key, v) :: d)) backup_password
       = ([], Raise (Exn AttributeError (lit "'str' object has no attribute 'get'"))))
  ∧ (∀ c s,
       decrypt_all_tokens (PStr (c :: s)) backup_password
       = ([], Raise (Exn AttributeError (lit "'str' object has no attribute 'get'")))).
Proof.
  split; [|split; [|split; [|split]]]; try reflexivity.
  intros tokens Hshape. by destruct tokens.
Qed.

(** X14: when the input file holds a JSON value that is not an object, the
    run is one report and nothing else: of the missing key if the value
    is a list without the string ["authenticator_tokens"] among its items
    or a string without it as a part; of a [TypeError] in the decryption
    step if it has it; of a failure to load if the value is a number, a
    boolean or [null]. *)
Theorem process_authenticator_data_not_object (input_file output_file backup_password : pystr)
    (data : pyval) :
  json_load_file input_file = Ok data →
  (∀ d, data ≠ PDict d) →
  process_authenticator_data input_file output_file backup_password =
    match py_contains (lit "authenticator_tokens") data with
    | Ok false => [error_line "ERROR: " (mk_KeyError missing_tokens_message)]
    | Ok true =>
        [error_line "ERROR: Failed during decryption: "
           (Exn TypeError
              (match data with
               | PList _ => lit "list indices must be integers or slices, not str"
               | _ => lit "string indices must be integers, not 'str'"
               end))]
    | Raise _ =>
        [error_line "ERROR: Failed to load input: "
           (Exn TypeError
              (lit "argument of type '" ++ py_type_name data ++ lit "' is not iterable"))]
    end.
Proof.
  intros Hload Hshape. unfold process_authenticator_data, load_authenticator_data.
  rewrite Hload. cbn [mbind result_bind].
  destruct data; try reflexivity.
  - cbn [py_contains]. by destruct (str_contains _ _).
  - cbn [py_contains]. by destruct (existsb _ _).
  - by destruct (Hshape d).
Qed.

(** X15: a token whose Base64 decodes and whose IV is the hexadecimal text
    of a number of bytes other than 16 fails with the [InvalidIV] text,
    whatever its salt, its iteration count, the passphrase and the
    backend: the key is not derived. *)
Theorem decrypt_token_invalid_iv (kdf_rounds encrypted_seed_b64 salt : pyval)
    (passphrase : pystr) (encrypted_seed iv : bytes) :
  decode_base64_seed encrypted_seed_b64 = Ok encrypted_seed →
  length iv ≠ 16 →
  decrypt_token kdf_rounds encrypted_seed_b64 salt passphrase (PStr (bytes_hex iv))
  = ([Stdout (RED ++ lit "ERROR: Decryption failed with exception: ValueError: "
              ++ lit "Invalid IV length: " ++ str_of_int (Z.of_nat (length iv)) ++ RESET_ALL);
      Stderr_traceback (InvalidIV (length iv))],
     lit "Decryption failed: Invalid IV length: " ++ str_of_int (Z.of_nat (length iv))).
Proof.
  intros Hseed Hlen. unfold decrypt_token, decrypt_token_try.
  rewrite Hseed. cbn [mbind result_bind].
  pose proof (get_iv_of_hex_lower iv) as Hiv. rewrite Hiv.
  rewrite bool_decide_eq_false_2 by done. cbn [mbind result_bind].
  reflexivity.
Qed.

End batch_more.

(** ** The order of the URIs *)

Lemma str_lt_irrefl (a : pystr) : str_lt a a = false.
Proof.
  induction a as [|x a IH]; [done|]. simpl. by rewrite !bool_decide_eq_false_2 by lia.
Qed.

Lemma str_lt_asym (a : pystr) : ∀ b, str_lt a b = true → str_lt b a = false.
Proof.
  induction a as [|x a IH]; intros [|y b]; simpl; try done.
  repeat case_bool_decide; try done; try lia. apply IH.
Qed.

Lemma str_lt_trans (a : pystr) : ∀ b c, str_lt a b = true → str_lt b c = true → str_lt a c = true.
Proof.
  induction a as [|x a IH]; intros [|y b] [|z c]; simpl; try done.
  repeat case_bool_decide; try done; try lia. apply IH.
Qed.

(** Either one is below the other, or they are the same string. *)
Lemma str_lt_total (a : pystr) : ∀ b, str_lt a b = false → str_lt b a = false → a = b.
Proof.
  induction a as [|x a IH]; intros [|y b]; simpl; try done.
  repeat case_bool_decide; try done. intros Hab Hba.
  f_equal; [lia|by apply IH].
Qed.

(** A proper prefix is below the string. *)
Lemma str_lt_proper_prefix (s prefix : pystr) :
  str_startswith s prefix = true → length prefix < length s → str_lt prefix s = true.
Proof.
  unfold str_startswith. intros Hp%bool_decide_eq_true Hlen.
  revert s Hp Hlen. induction prefix as [|x prefix IH]; intros [|y s] Hp Hlen;
    simpl in *; try done; try lia.
  injection Hp as -> Hp. rewrite !bool_decide_eq_false_2 by lia. apply IH; [done|lia].
Qed.

Lemma rev_replicate {A} (n : nat) (x : A) : rev (replicate n x) = replicate n x.
Proof.
  induction n as [|n IH]; [done|]. simpl. rewrite IH.
  clear IH. induction n as [|n IH]; [done|]. simpl. by rewrite IH.
Qed.

Section generate_uris_more.
Context {UL : UnicodeLower}.

Lemma name_le_trans (a b c : uri_item) : name_le a b → name_le b c → name_le a c.
Proof.
  unfold name_le. intros Hab Hbc.
  destruct (str_lt (normalize_name (item_name c)) (normalize_name (item_name a))) eqn:Hca;
    [|done].
  destruct (str_lt (normalize_name (item_name a)) (normalize_name (item_name b))) eqn:Hab'.
  - by rewrite (str_lt_trans _ _ _ Hca Hab') in Hbc.
  - rewrite (str_lt_total _ _ Hab' Hab) in Hca. by rewrite Hca in Hbc.
Qed.

Lemma sort_insert_perm (x : uri_item) (l : list uri_item) : sort_insert x l ≡ₚ x :: l.
Proof.
  induction l as [|y l IH]; [done|]. simpl. destruct (str_lt _ _); [|done].
  by rewrite IH, Permutation_swap.
Qed.

Lemma sort_by_name_perm (items : list uri_item) : sort_by_name items ≡ₚ items.
Proof.
  induction items as [|x items IH]; [done|]. simpl. by rewrite sort_insert_perm, IH.
Qed.

Lemma sort_insert_sorted (x : uri_item) (l : list uri_item) :
  StronglySorted name_le l → StronglySorted name_le (sort_insert x l).
Proof.
  induction 1 as [|y l Hl IH Hy]; simpl; [by repeat constructor|].
  destruct (str_lt _ _) eqn:Hyx.
  - constructor; [done|]. rewrite sort_insert_perm. constructor; [|done].
    unfold name_le. by apply str_lt_asym.
  - assert (Hxy : name_le x y) by exact Hyx.
    constructor; [by constructor|]. constructor; [done|].
    eapply Forall_impl; [exact Hy|]. intros z Hz. by eapply name_le_trans.
Qed.

Lemma sort_by_name_sorted (items : list uri_item) : StronglySorted name_le (sort_by_name items).
Proof.
  induction items as [|x items IH]; simpl; [constructor|]. by apply sort_insert_sorted.
Qed.

Lemma sorted_lookup_lt (l : list uri_item) (i j : nat) (a b : uri_item) :
  StronglySorted name_le l → i < j → l !! i = Some a → l !! j = Some b → name_le a b.
Proof.
  intros Hl. revert i j. induction Hl as [|x l Hl IH Hx]; intros i j Hij Hi Hj; [done|].
  destruct j as [|j]; [lia|]. destruct i as [|i]; simpl in *.
  - injection Hi as ->. rewrite Forall_forall in Hx. apply Hx.
    by apply list_elem_of_lookup_2 in Hj.
  - apply (IH i j); [lia|done|done].
Qed.

(** On a sorted list the [while] loop stops at its first test. *)
Lemma custom_sort_while_sorted (l : list uri_item) (j : nat) :
  StronglySorted name_le l → custom_sort_while l j = l.
Proof.
  intros Hl. destruct j as [|j]; [done|]. simpl.
  destruct (l !! j) as [prev|] eqn:Hp; [|done].
  destruct (l !! S j) as [curr|] eqn:Hc; [|done].
  pose proof (sorted_lookup_lt l j (S j) prev curr Hl (Nat.lt_succ_diag_r j) Hp Hc) as Hle. unfold name_le in Hle.
  destruct (str_startswith _ _) eqn:Hsw; [|done].
  case_bool_decide as Hlen; [|done]. exfalso.
  rewrite str_lt_proper_prefix in Hle; [done|done|lia].
Qed.

Lemma custom_sort_for_sorted (l : list uri_item) (js : list nat) :
  StronglySorted name_le l → fold_left custom_sort_while js l = l.
Proof.
  intros Hl. induction js as [|j js IH]; [done|]. simpl.
  by rewrite custom_sort_while_sorted.
Qed.

(** X16: [custom_sort] leaves the items in the stable order of their
    normalised names: after [items.sort] no item has a neighbour before it
    whose normalised name is longer and starts with its own, so the second
    pass never swaps. *)
Theorem custom_sort_is_sort (items : list uri_item) :
  custom_sort items = sort_by_name items.
Proof.
  unfold custom_sort. apply custom_sort_for_sorted, sort_by_name_sorted.
Qed.

(** X17: [custom_sort] returns the same items, each as many times, in an
    order where no item stands before one with a smaller normalised name;
    in particular an item whose normalised name is a proper prefix of
    another's stands before it. *)
Theorem custom_sort_sorted (items : list uri_item) :
  custom_sort items ≡ₚ items
  ∧ StronglySorted name_le (custom_sort items)
  ∧ ∀ (i j : nat) (a b : uri_item),
      custom_sort items !! i = Some a → custom_sort items !! j = Some b →
      str_startswith (normalize_name (item_name b)) (normalize_name (item_name a)) = true →
      length (normalize_name (item_name a)) < length (normalize_name (item_name b)) →
      i < j.
Proof.
  unfold custom_sort.
  rewrite custom_sort_for_sorted by apply sort_by_name_sorted.
  split; [apply sort_by_name_perm|]. split; [apply sort_by_name_sorted|].
  intros i j a b Hi Hj Hsw Hlen.
  pose proof (str_lt_proper_prefix _ _ Hsw Hlen) as Hlt.
  destruct (decide (i < j)) as [|Hge]; [done|]. exfalso.
  assert (Hle : name_le b a).
  { destruct (decide (i = j)) as [->|Hne].
    - rewrite Hi in Hj. injection Hj as ->. by rewrite str_lt_irrefl in Hlt.
    - apply (sorted_lookup_lt (sort_by_name items) j i);
        [apply sort_by_name_sorted|lia|done|done]. }
  unfold name_le in Hle. by rewrite Hlt in Hle.
Qed.

(** X18: [normalize_name] does not see dots at the end of a name. *)
Theorem normalize_name_trailing_dots (name : pystr) (n : nat) :
  normalize_name (name ++ replicate n 46%N) = normalize_name name.
Proof.
  unfold normalize_name, rstrip_dots. f_equal. f_equal.
  rewrite rev_app_distr, rev_replicate.
  induction n as [|n IH]; [done|]. exact IH.
Qed.

End generate_uris_more.

(** ** The added properties on the sample backup *)

Module MoreExamples.
Import Reference Sample.

Lemma process_authenticator_data_writes_witness :
  process_authenticator_data (FS := input_batch)
    (lit "authenticator_tokens.json") (lit "decrypted_tokens.json") backup_password
  = flat_map (body_events backup_password) batch
    ++ [FileWrite (lit "decrypted_tokens.json")
          (PDict [(lit "message", PStr (lit "success"));
                  (lit "decrypted_authenticator_tokens",
                   PList (body_record backup_password <$> batch));
                  (lit "success", PBool true)])
          None].
Proof.
  exact (process_authenticator_data_writes (FS := input_batch)
           (lit "authenticator_tokens.json") (lit "decrypted_tokens.json") backup_password
           _ batch (reflexivity _) (reflexivity _) Examples.batch_well_formed).
Defined.

Lemma decrypt_all_tokens_output_keys_witness :
  ∃ r, body_record backup_password (PDict token_corrupted) = PDict r ∧ r.*1 = output_keys.
Proof.
  refine (decrypt_all_tokens_output_keys batch backup_password _ _ _
            (decrypt_all_tokens_well_formed batch backup_password Examples.batch_well_formed)
            _).
  cbn [fmap list_fmap batch]. apply list_elem_of_further, list_elem_of_here.
Defined.

(** A number among the records. *)
Lemma decrypt_all_tokens_item_not_object_witness :
  decrypt_all_tokens (PList ([PDict token_corrupted] ++ PInt 7 :: [PDict token_no_iv]))
    backup_password
  = (flat_map (body_events backup_password) [PDict token_corrupted],
     Raise (Exn AttributeError (lit "'int' object has no attribute 'get'"))).
Proof.
  refine (decrypt_all_tokens_item_not_object [PDict token_corrupted] (PInt 7)
            [PDict token_no_iv] backup_password _ _).
  - constructor; [|constructor].
    pose proof Examples.batch_well_formed as Hb. unfold batch in Hb.
    by inversion Hb as [|? ? _ Hb']; inversion Hb'.
  - discriminate.
Defined.

Lemma decrypt_all_tokens_not_a_list_witness :
  decrypt_all_tokens (PInt 3) backup_password
  = ([], Raise (Exn TypeError (lit "'int' object is not iterable"))).
Proof. exact (proj1 (decrypt_all_tokens_not_a_list backup_password) (PInt 3) I). Defined.

(** An input file that holds a list with the name of the key in it. *)
Lemma process_authenticator_data_not_object_witness :
  process_authenticator_data
    (FS := directory [(lit "authenticator_tokens.json",
                       PList [PStr (lit "authenticator_tokens"); PList []])])
    (lit "authenticator_tokens.json") (lit "decrypted_tokens.json") backup_password
  = [error_line "ERROR: Failed during decryption: "
       (Exn TypeError (lit "list indices must be integers or slices, not str"))].
Proof.
  refine (process_authenticator_data_not_object
            (FS := directory [(lit "authenticator_tokens.json",
                               PList [PStr (lit "authenticator_tokens"); PList []])])
            (lit "authenticator_tokens.json") (lit "decrypted_tokens.json") backup_password
            _ (reflexivity _) _).
  discriminate.
Defined.

(** An IV of 15 bytes on the first record of the sample. *)
Lemma decrypt_token_invalid_iv_witness :
  decrypt_token (PInt 3) (PStr (lit "d4b537GYCxYKgbTFXgqQWK+rLjzdlCm+rxdFrXIU/fM="))
    (PStr (lit "s4ltA")) backup_password (PStr (bytes_hex (replicate 15 x0a)))
  = ([Stdout (RED ++ lit "ERROR: Decryption failed with exception: ValueError: "
              ++ lit "Invalid IV length: " ++ str_of_int 15 ++ RESET_ALL);
      Stderr_traceback (InvalidIV 15)],
     lit "Decryption failed: Invalid IV length: " ++ str_of_int 15).
Proof.
  destruct (decode_base64_seed (PStr (lit "d4b537GYCxYKgbTFXgqQWK+rLjzdlCm+rxdFrXIU/fM=")))
    as [encrypted_seed|e] eqn:Hseed; [|by vm_compute in Hseed].
  exact (decrypt_token_invalid_iv (PInt 3) _ (PStr (lit "s4ltA")) backup_password
           encrypted_seed (replicate 15 x0a) Hseed ltac:(by vm_compute)).
Defined.

(** [custom_sort] on four names: the dots at the end and the case are not
    seen, equal names keep their order, a prefix goes first. *)
Example custom_sort_example :
  item_name <$> custom_sort
    [UriItem (lit "GitHub 02") (lit "otpauth://totp/b");
     UriItem (lit "github") (lit "otpauth://totp/a");
     UriItem (lit "Amazon.") (lit "otpauth://totp/c");
     UriItem (lit "amazon") (lit "otpauth://totp/d")]
  = lit <$> ["Amazon."; "amazon"; "github"; "GitHub 02"]%string.
Proof. reflexivity. Qed.

End MoreExamples.
